(** * Project resolution of the Ionic CLI (lib/project)

    A shallow embedding of [ProjectDetails], [createProjectFromType],
    [ProjectConfig] and the runner accessors of [Project], with the
    properties of the project-resolution specification stated over it.

    JavaScript values are embedded as a JSON-like tree; [async] functions are
    embedded as computations over an explicit world (what the awaited
    operations may touch) that either return or throw. *)

From Stdlib Require Import List String Ascii Bool ZArith Lia DecimalString.
Import ListNotations.
Set Warnings "-register-all".
Local Open Scope string_scope.
Local Open Scope list_scope.

(** ** JavaScript values *)

Module JS.

(** The values a parsed JSON document or a parsed argument map can hold.
    An object is the list of its own properties in enumeration order, which
    for keys that are not array indices is the order they were written in (a
    parsed object has pairwise distinct keys).  Numbers are restricted to the
    integers that print in plain decimal.  A value holds its own properties;
    what it inherits from the prototypes of the engine is found by
    [get_property], and the functions found there are [VFunction]. *)
Inductive value : Type :=
| VUndefined
| VNull
| VBool (b : bool)
| VNum (n : Z)
| VStr (s : string)
| VArr (l : list value)
| VObj (l : list (string * value))
| VFunction (name : string).

(** ToBoolean. *)
Definition truthy (v : value) : bool :=
  match v with
  | VUndefined | VNull => false
  | VBool b => b
  | VNum n => negb (Z.eqb n 0)
  | VStr s => negb (String.eqb s "")
  | VArr _ | VObj _ | VFunction _ => true
  end.

(** A [T | undefined] result as a value. *)
Definition to_value (o : option value) : value :=
  match o with
  | Some v => v
  | None => VUndefined
  end.

Definition string_of_Z (n : Z) : string := NilZero.string_of_int (Z.to_int n).
Definition string_of_nat (n : nat) : string := NilZero.string_of_uint (Nat.to_uint n).

Fixpoint join (sep : string) (l : list string) : string :=
  match l with
  | [] => ""
  | [s] => s
  | s :: rest => (s ++ sep ++ join sep rest)%string
  end.

(** [String(v)]. *)
Fixpoint js_String (v : value) : string :=
  match v with
  | VUndefined => "undefined"
  | VNull => "null"
  | VBool true => "true"
  | VBool false => "false"
  | VNum n => string_of_Z n
  | VStr s => s
  | VArr l =>
      join "," (map (fun x => match x with
                              | VUndefined | VNull => ""
                              | _ => js_String x
                              end) l)
  | VObj _ => "[object Object]"
  | VFunction f => ("function " ++ f ++ "() { [native code] }")%string
  end.

(** [typeof v === 'string'] *)
Definition is_string (v : value) : bool :=
  match v with
  | VStr _ => true
  | _ => false
  end.

Fixpoint lookup (k : string) (l : list (string * value)) : value :=
  match l with
  | [] => VUndefined
  | (k', v) :: rest => if String.eqb k k' then v else lookup k rest
  end.

Fixpoint index_from (i : nat) (l : list value) : list (string * value) :=
  match l with
  | [] => []
  | v :: rest => (string_of_nat i, v) :: index_from (S i) rest
  end.

Fixpoint chars (s : string) : list value :=
  match s with
  | EmptyString => []
  | String c rest => VStr (String c EmptyString) :: chars rest
  end.

(** [lodash.entries(v)]: the own enumerable string-keyed pairs, in enumeration
    order; indices for arrays and strings, nothing for the other values. *)
Definition entries (v : value) : list (string * value) :=
  match v with
  | VObj l => l
  | VArr l => index_from 0 l
  | VStr s => index_from 0 (chars s)
  | _ => []
  end.

(** The own property [k] of [v], [undefined] when [v] has none.  This is
    [v.k] for the names the module reads ([project], [projects],
    [defaultProject], [type], [root], [enabled]): no prototype has a member
    of these names. *)
Definition get_own (v : value) (k : string) : value :=
  match v with
  | VObj l => lookup k l
  | VArr l =>
      if String.eqb k "length" then VNum (Z.of_nat (List.length l))
      else lookup k (index_from 0 l)
  | VStr s =>
      if String.eqb k "length" then VNum (Z.of_nat (String.length s))
      else lookup k (index_from 0 (chars s))
  | _ => VUndefined
  end.

Definition value_eqb_str (v : value) (s : string) : bool :=
  match v with
  | VStr s' => String.eqb s' s
  | _ => false
  end.

(** [Object.prototype.hasOwnProperty.call(v, k)] *)
Definition has_own (v : value) (k : string) : bool :=
  existsb (fun kv => String.eqb k (fst kv)) (entries v)
  || match v with
     | VArr _ | VStr _ => String.eqb k "length"
     | _ => false
     end.

(** [v[k]] for a computed key, on a base that is neither [undefined] nor
    [null]: the own property when there is one, else the member found along
    the prototype chain.  [prototype_member v k] is that inherited member,
    [undefined] when no prototype of [v] has one. *)
Definition get_property (prototype_member : value -> string -> value)
    (v : value) (k : string) : value :=
  if has_own v k then get_own v k else prototype_member v k.

(** The own properties of [Object.prototype] that are functions. *)
Definition Object_prototype_functions : list string :=
  ["__defineGetter__"; "__defineSetter__"; "hasOwnProperty"; "__lookupGetter__";
   "__lookupSetter__"; "isPrototypeOf"; "propertyIsEnumerable"; "toString";
   "valueOf"; "toLocaleString"].

(** What a plain object inherits under [k]: [constructor] is the function
    [Object]; [__proto__] is [Object.prototype] itself, an object with no
    enumerable property of its own. *)
Definition Object_prototype_member (k : string) : value :=
  if String.eqb k "constructor" then VFunction "Object"
  else if existsb (String.eqb k) Object_prototype_functions then VFunction k
  else if String.eqb k "__proto__" then VObj []
  else VUndefined.

(** The array index a key is: the canonical decimal form of an integer below
    [2^32 - 1]. *)
Definition array_index (k : string) : option N :=
  match NilZero.uint_of_string k with
  | Some u =>
      let n := N.of_uint u in
      if String.eqb (NilZero.string_of_uint (N.to_uint n)) k && N.ltb n 4294967295
      then Some n
      else None
  | None => None
  end.

Fixpoint insert_index (n : N) (kv : string * value) (l : list (N * (string * value)))
  : list (N * (string * value)) :=
  match l with
  | [] => [(n, kv)]
  | (m, x) :: rest =>
      if N.leb n m then (n, kv) :: l else (m, x) :: insert_index n kv rest
  end.

Fixpoint index_properties (l : list (string * value)) : list (N * (string * value)) :=
  match l with
  | [] => []
  | (k, v) :: rest =>
      match array_index k with
      | Some n => insert_index n (k, v) (index_properties rest)
      | None => index_properties rest
      end
  end.

Definition named_properties (l : list (string * value)) : list (string * value) :=
  filter (fun kv => match array_index (fst kv) with
                    | Some _ => false
                    | None => true
                    end) l.

(** The order in which the own properties of an object are enumerated, given
    the order they were written in (with pairwise distinct keys): the array
    indices in ascending order, then the other keys as written. *)
Definition enumeration_order (written : list (string * value)) : list (string * value) :=
  map snd (index_properties written) ++ named_properties written.

(** The object whose members were written in the order [written]. *)
Definition object_of (written : list (string * value)) : value :=
  VObj (enumeration_order written).

End JS.
Export JS.

(** ** Computations that may throw *)

(** The exception classes the module imports from [../errors], and the native
    errors raised by the operations it calls. *)
Inductive exception : Type :=
| BaseException (msg : string)
| FatalException (msg : string)
| IntegrationNotFoundException (msg : string)
| RunnerNotFoundException (msg : string)
| TypeError (msg : string)
| OtherError (name msg : string).

(** [e instanceof RunnerNotFoundException] *)
Definition instanceof_RunnerNotFoundException (e : exception) : bool :=
  match e with
  | RunnerNotFoundException _ => true
  | _ => false
  end.

(** An [async] function: from the world it runs in to its outcome (a thrown
    exception or a returned value) and the world it leaves. *)
Definition M (World A : Type) : Type := World -> (exception + A) * World.

Definition ret {World A : Type} (a : A) : M World A := fun w => (inr a, w).

Definition throw {World A : Type} (e : exception) : M World A := fun w => (inl e, w).

Definition bind {World A B : Type} (c : M World A) (k : A -> M World B) : M World B :=
  fun w =>
    match c w with
    | (inr a, w') => k a w'
    | (inl e, w') => (inl e, w')
    end.

(** [try { c } catch (e) { h e }] *)
Definition try_catch {World A : Type} (c : M World A) (h : exception -> M World A) : M World A :=
  fun w =>
    match c w with
    | (inr a, w') => (inr a, w')
    | (inl e, w') => h e w'
    end.

Declare Scope js_scope.
Delimit Scope js_scope with js.
Notation "x <- c ;; k" := (bind c (fun x => k))
  (at level 61, c at next level, right associativity) : js_scope.
Local Open Scope js_scope.

(** [v.k] for the names the module reads: a [TypeError] on [undefined] and
    [null]. *)
Definition get_member {World : Type} (v : value) (k : string) : M World value :=
  match v with
  | VUndefined | VNull => throw (TypeError "Cannot read property of undefined or null")
  | _ => ret (get_own v k)
  end.

(** [v[k]] for a computed key: a [TypeError] on [undefined] and [null]. *)
Definition get_computed_member {World : Type} (prototype_member : value -> string -> value)
    (v : value) (k : string) : M World value :=
  match v with
  | VUndefined | VNull => throw (TypeError "Cannot read property of undefined or null")
  | _ => ret (get_property prototype_member v k)
  end.

(** ** Project types *)

(** The four types [createProjectFromType] builds a project for. *)
Inductive ProjectType : Type := angular | ionic_angular | ionic1 | custom.

(** The string each [ProjectType] is at run time. *)
Definition type_name (t : ProjectType) : string :=
  match t with
  | angular => "angular"
  | ionic_angular => "ionic-angular"
  | ionic1 => "ionic1"
  | custom => "custom"
  end.

Definition type_value (t : ProjectType) : value := VStr (type_name t).

(** [types.includes(v)] *)
Definition includes (types : list ProjectType) (v : value) : bool :=
  existsb (fun t => value_eqb_str v (type_name t)) types.

(** ** Resolution results *)

Inductive ProjectDetailsErrorCode : Type :=
| ERR_INVALID_PROJECT_FILE
| ERR_INVALID_PROJECT_TYPE
| ERR_MISSING_PROJECT_TYPE
| ERR_MULTI_MISSING_CONFIG
| ERR_MULTI_MISSING_NAME.

Record ProjectDetailsError : Type := mkProjectDetailsError {
  message : string;
  code : ProjectDetailsErrorCode;
  error : option exception
}.

Inductive Context : Type := app | multiapp | unknown.

Record ProjectDetailsSingleAppResult : Type := mkSingleAppResult {
  app_config : value;
  app_type : option value;
  app_errors : list ProjectDetailsError
}.

Record ProjectDetailsMultiAppResult : Type := mkMultiAppResult {
  multi_config : value;
  multi_name : option value;
  multi_type : option value;
  multi_errors : list ProjectDetailsError
}.

(** [ProjectDetailsResult]: an optional member that is [undefined] or not set
    is [None]. *)
Record ProjectDetailsResult : Type := mkResult {
  configPath : string;
  context : Context;
  config : option value;
  type : option value;
  name : option value;
  errors : list ProjectDetailsError
}.

Definition codes (l : list ProjectDetailsError) : list ProjectDetailsErrorCode :=
  map code l.

(** ** The project module *)

Section Resolution.

Variable World : Type.
Variables BuildRunner ServeRunner GenerateRunner : Type.

(** What [Project] leaves abstract, with the constructor arguments it stores.
    [detected] is the marker probe, "side-effect-free (read-only filesystem
    inspection)": it reads the world and answers. *)
Record IProject : Type := mkProject {
  project_type : ProjectType;
  filePath : string;
  project_name : option value;
  detected : World -> bool;
  requireBuildRunner : M World BuildRunner;
  requireServeRunner : M World ServeRunner;
  requireGenerateRunner : M World GenerateRunner
}.

(** What the module imports and this development does not define: the
    constants of [../../constants], the guards of [../../guards],
    [readJsonFile] of [@ionic/utils-fs], [path.resolve], and the members the
    four variant classes ([./angular], [./ionic-angular], [./ionic1],
    [./custom]) implement, given the variant and its constructor arguments.
    With them, what the engine provides: [prototype_member v k] is the member
    [v] inherits under [k] from [Object.prototype] and the other prototypes
    ([undefined] when there is none). *)
Class Imports : Type := {
  prototype_member : value -> string -> value;
  PROJECT_FILE : string;
  PROJECT_TYPES : list ProjectType;
  path_resolve : string -> string -> string;
  readJsonFile : string -> M World value;
  isProjectConfig : value -> bool;
  isMultiProjectConfig : value -> bool;
  variant_detected : ProjectType -> string -> option value -> World -> bool;
  variant_requireBuildRunner : ProjectType -> string -> option value -> M World BuildRunner;
  variant_requireServeRunner : ProjectType -> string -> option value -> M World ServeRunner;
  variant_requireGenerateRunner : ProjectType -> string -> option value -> M World GenerateRunner
}.

Context {imports : Imports}.

(** Modelled from the spec: the variant classes are not part of the module;
    each is one of "angular / ionic-angular / ionic1 / custom" and carries
    that type, and implements the abstract members. *)
Definition new_Project (t : ProjectType) (filePath : string) (name : option value) : IProject :=
  {| project_type := t;
     filePath := filePath;
     project_name := name;
     detected := variant_detected t filePath name;
     requireBuildRunner := variant_requireBuildRunner t filePath name;
     requireServeRunner := variant_requireServeRunner t filePath name;
     requireGenerateRunner := variant_requireGenerateRunner t filePath name |}.

Definition AngularProject := new_Project angular.
Definition IonicAngularProject := new_Project ionic_angular.
Definition Ionic1Project := new_Project ionic1.
Definition CustomProject := new_Project custom.

Definition createProjectFromType (filePath : string) (name : option value) (type : value)
  : M World IProject :=
  if value_eqb_str type "angular" then ret (AngularProject filePath name)
  else if value_eqb_str type "ionic-angular" then ret (IonicAngularProject filePath name)
  else if value_eqb_str type "ionic1" then ret (Ionic1Project filePath name)
  else if value_eqb_str type "custom" then ret (CustomProject filePath name)
  else throw (FatalException ("Bad project type: " ++ js_String type)%string).

(** Modelled from the spec: [resolveValue] of [@ionic/cli-framework/utils/fn]
    is not part of the module.  "An ordered fallback chain, each step
    attempted only if the previous yielded nothing": the steps run in order
    and the first result that is something is the result, where [undefined]
    and the other values JavaScript tests as false are nothing. *)
Fixpoint resolveValue (fns : list (M World (option value))) : M World (option value) :=
  match fns with
  | [] => ret None
  | fn :: rest =>
      r <- fn ;;
      if truthy (to_value r) then ret r else resolveValue rest
  end.

(** [path.resolve(base, p)] on a run-time value: the arguments of
    [path.resolve] must be strings. *)
Definition resolve_value (base : string) (p : value) : M World string :=
  match p with
  | VStr s => ret (path_resolve base s)
  | _ => throw (TypeError "The path argument must be of type string")
  end.

(** *** ProjectDetails *)

(** An instance: [execPath] is [e.ctx.execPath], the one member of the
    dependencies the class reads. *)
Record ProjectDetails : Type := mkProjectDetails {
  rootDirectory : string;
  args : value;
  execPath : string;
  _result : option ProjectDetailsResult
}.

Definition getNameFromArgs (this : ProjectDetails) : M World (option value) :=
  let name :=
    if truthy (args this) && truthy (get_own (args this) "project")
    then VStr (js_String (get_own (args this) "project"))
    else VUndefined in
  if truthy name then ret (Some name) else ret None.

Fixpoint getNameFromPathMatch_loop (this : ProjectDetails) (es : list (string * value))
  : M World (option value) :=
  match es with
  | [] => ret None
  | (key, value) :: rest =>
      if truthy value && truthy (get_own value "root") then
        projectDir <- resolve_value (rootDirectory this) (get_own value "root") ;;
        if String.prefix projectDir (execPath this)
        then ret (Some (VStr key))
        else getNameFromPathMatch_loop this rest
      else getNameFromPathMatch_loop this rest
  end.

Definition getNameFromPathMatch (this : ProjectDetails) (config : value) : M World (option value) :=
  projects <- get_member config "projects" ;;
  getNameFromPathMatch_loop this (entries projects).

Definition getNameFromDefaultProject (this : ProjectDetails) (config : value)
  : M World (option value) :=
  name <- get_member config "defaultProject" ;;
  if truthy name then ret (Some name) else ret None.

Definition getTypeFromConfig (this : ProjectDetails) (config : value) : M World (option value) :=
  type <- get_member config "type" ;;
  if truthy type then ret (Some type) else ret None.

Fixpoint getTypeFromDetection_loop (this : ProjectDetails) (types : list ProjectType)
  : M World (option value) :=
  match types with
  | [] => ret None
  | projectType :: rest =>
      p <- createProjectFromType (path_resolve (rootDirectory this) PROJECT_FILE) None
             (type_value projectType) ;;
      let type := type_value (project_type p) in
      fun w =>
        if detected p w then ret (Some type) w
        else getTypeFromDetection_loop this rest w
  end.

Definition getTypeFromDetection (this : ProjectDetails) : M World (option value) :=
  getTypeFromDetection_loop this PROJECT_TYPES.

Definition determineSingleApp (this : ProjectDetails) (config : value)
  : M World ProjectDetailsSingleAppResult :=
  type <- resolveValue [getTypeFromConfig this config; getTypeFromDetection this] ;;
  let errors :=
    if negb (truthy (to_value type)) then
      [mkProjectDetailsError "Could not determine project type." ERR_MISSING_PROJECT_TYPE None]
    else if negb (includes PROJECT_TYPES (to_value type)) then
      [mkProjectDetailsError "Invalid project type." ERR_INVALID_PROJECT_TYPE None]
    else [] in
  ret {| app_config := config; app_type := type; app_errors := errors |}.

Definition determineMultiApp (this : ProjectDetails) (config : value)
  : M World ProjectDetailsMultiAppResult :=
  name <- resolveValue [getNameFromArgs this;
                        getNameFromPathMatch this config;
                        getNameFromDefaultProject this config] ;;
  if truthy (to_value name) then
    projects <- get_member config "projects" ;;
    app <- get_computed_member prototype_member projects (js_String (to_value name)) ;;
    if truthy app then
      result <- determineSingleApp this app ;;
      ret {| multi_config := config; multi_name := name;
             multi_type := app_type result;
             multi_errors := [] ++ app_errors result |}
    else
      ret {| multi_config := config; multi_name := name; multi_type := None;
             multi_errors :=
               [mkProjectDetailsError "Could not find project in config."
                  ERR_MULTI_MISSING_CONFIG None] |}
  else
    ret {| multi_config := config; multi_name := name; multi_type := None;
           multi_errors :=
             [mkProjectDetailsError "Could not determine project name."
                ERR_MULTI_MISSING_NAME None] |}.

(** In [{ configPath, errors, ...result }] the members of [result] come last:
    its [errors] is the one the object keeps. *)
Definition determine (this : ProjectDetails) : M World ProjectDetailsResult :=
  let configPath := path_resolve (rootDirectory this) PROJECT_FILE in
  read <- try_catch
            (c <- readJsonFile configPath ;; ret (Some c, []))
            (fun e => ret (None,
               [mkProjectDetailsError "Could not read project file."
                  ERR_INVALID_PROJECT_FILE (Some e)])) ;;
  let config : option value := fst read in
  let errors : list ProjectDetailsError := snd read in
  let unknown_result :=
    ret {| configPath := configPath; context := unknown; config := config;
           type := None; name := None; errors := errors |} in
  if truthy (to_value config) then
    if isProjectConfig (to_value config) then
      result <- determineSingleApp this (to_value config) ;;
      ret {| configPath := configPath; context := app;
             config := Some (app_config result); type := app_type result;
             name := None; errors := app_errors result |}
    else if isMultiProjectConfig (to_value config) then
      result <- determineMultiApp this (to_value config) ;;
      ret {| configPath := configPath; context := multiapp;
             config := Some (multi_config result); type := multi_type result;
             name := multi_name result; errors := multi_errors result |}
    else unknown_result
  else unknown_result.

Definition result (this : ProjectDetails) : M World (ProjectDetailsResult * ProjectDetails) :=
  match _result this with
  | None =>
      r <- determine this ;;
      ret (r, {| rootDirectory := rootDirectory this; args := args this;
                 execPath := execPath this; _result := Some r |})
  | Some r => ret (r, this)
  end.

(** *** Project: the runner accessors *)

Definition getBuildRunner (this : IProject) : M World (option BuildRunner) :=
  try_catch (r <- requireBuildRunner this ;; ret (Some r))
    (fun e => if negb (instanceof_RunnerNotFoundException e) then throw e else ret None).

Definition getServeRunner (this : IProject) : M World (option ServeRunner) :=
  try_catch (r <- requireServeRunner this ;; ret (Some r))
    (fun e => if negb (instanceof_RunnerNotFoundException e) then throw e else ret None).

Definition getGenerateRunner (this : IProject) : M World (option GenerateRunner) :=
  try_catch (r <- requireGenerateRunner this ;; ret (Some r))
    (fun e => if negb (instanceof_RunnerNotFoundException e) then throw e else ret None).

End Resolution.

Arguments prototype_member {World BuildRunner ServeRunner GenerateRunner Imports} _ _.
Arguments PROJECT_FILE {World BuildRunner ServeRunner GenerateRunner Imports}.
Arguments PROJECT_TYPES {World BuildRunner ServeRunner GenerateRunner Imports}.
Arguments path_resolve {World BuildRunner ServeRunner GenerateRunner Imports} _ _.
Arguments readJsonFile {World BuildRunner ServeRunner GenerateRunner Imports} _ _.
Arguments isProjectConfig {World BuildRunner ServeRunner GenerateRunner Imports} _.
Arguments isMultiProjectConfig {World BuildRunner ServeRunner GenerateRunner Imports} _.
Arguments variant_detected {World BuildRunner ServeRunner GenerateRunner Imports} _ _ _ _.
Arguments variant_requireBuildRunner {World BuildRunner ServeRunner GenerateRunner Imports} _ _ _ _.
Arguments variant_requireServeRunner {World BuildRunner ServeRunner GenerateRunner Imports} _ _ _ _.
Arguments variant_requireGenerateRunner
  {World BuildRunner ServeRunner GenerateRunner Imports} _ _ _ _.
Arguments project_type {World BuildRunner ServeRunner GenerateRunner} _.
Arguments filePath {World BuildRunner ServeRunner GenerateRunner} _.
Arguments project_name {World BuildRunner ServeRunner GenerateRunner} _.
Arguments detected {World BuildRunner ServeRunner GenerateRunner} _ _.
Arguments requireBuildRunner {World BuildRunner ServeRunner GenerateRunner} _ _.
Arguments requireServeRunner {World BuildRunner ServeRunner GenerateRunner} _ _.
Arguments requireGenerateRunner {World BuildRunner ServeRunner GenerateRunner} _ _.
Arguments new_Project {World BuildRunner ServeRunner GenerateRunner imports} _ _ _.
Arguments createProjectFromType {World BuildRunner ServeRunner GenerateRunner imports} _ _ _ _.
Arguments resolveValue {World} _ _.
Arguments resolve_value {World BuildRunner ServeRunner GenerateRunner imports} _ _ _.
Arguments getNameFromArgs {World} _ _.
Arguments getNameFromPathMatch_loop
  {World BuildRunner ServeRunner GenerateRunner imports} _ _ _.
Arguments getNameFromPathMatch {World BuildRunner ServeRunner GenerateRunner imports} _ _ _.
Arguments getNameFromDefaultProject {World} _ _ _.
Arguments getTypeFromConfig {World} _ _ _.
Arguments getTypeFromDetection_loop
  {World BuildRunner ServeRunner GenerateRunner imports} _ _ _.
Arguments getTypeFromDetection {World BuildRunner ServeRunner GenerateRunner imports} _ _.
Arguments determineSingleApp {World BuildRunner ServeRunner GenerateRunner imports} _ _ _.
Arguments determineMultiApp {World BuildRunner ServeRunner GenerateRunner imports} _ _ _.
Arguments determine {World BuildRunner ServeRunner GenerateRunner imports} _ _.
Arguments result {World BuildRunner ServeRunner GenerateRunner imports} _ _.
Arguments getBuildRunner {World BuildRunner ServeRunner GenerateRunner} _ _.
Arguments getServeRunner {World BuildRunner ServeRunner GenerateRunner} _ _.
Arguments getGenerateRunner {World BuildRunner ServeRunner GenerateRunner} _ _.

(** ** ProjectConfig *)

Module Config.

(** *** Objects as property lists *)

Definition keys (l : list (string * value)) : list string := map fst l.

(** [o[k] = v]: the property keeps its place, a new one comes last. *)
Fixpoint set_prop (k : string) (v : value) (l : list (string * value)) : list (string * value) :=
  match l with
  | [] => [(k, v)]
  | (k', v') :: rest =>
      if String.eqb k k' then (k, v) :: rest else (k', v') :: set_prop k v rest
  end.

(** [delete o[k]] *)
Fixpoint delete_prop (k : string) (l : list (string * value)) : list (string * value) :=
  match l with
  | [] => []
  | (k', v') :: rest =>
      if String.eqb k k' then delete_prop k rest else (k', v') :: delete_prop k rest
  end.

(** [k in o] *)
Definition has_prop (k : string) (l : list (string * value)) : bool :=
  existsb (String.eqb k) (keys l).

(** [lodash.assign({}, defaults, config)] *)
Definition assign (defaults config : list (string * value)) : list (string * value) :=
  fold_left (fun acc kv => set_prop (fst kv) (snd kv) acc) config defaults.

(** *** BaseConfig *)

(** Modelled from the spec: [BaseConfig] of [@ionic/cli-framework] is not part
    of the module.  The "physical config file" is the JSON document it holds;
    a config is a "scoped view" over it, "top-level for single-app,
    path-prefixed for named sub-app", that "reads/writes under a
    [projects.<name>] path prefix inside the same underlying file" and is
    "re-read on each [config] access". *)
Record BaseConfig : Type := mkBaseConfig {
  p : string;
  pathPrefix : list string
}.

(** Modelled from the spec: the read half of the "path prefix" of
    [BaseConfig], the document found under a path. *)
Fixpoint get_in (path : list string) (file : value) : value :=
  match path with
  | [] => file
  | k :: ks => get_in ks (get_own file k)
  end.

Definition as_object (v : value) : list (string * value) :=
  match v with
  | VObj l => l
  | _ => []
  end.

(** Modelled from the spec: the write half of the "path prefix" of
    [BaseConfig], the document with the one under a path replaced. *)
Fixpoint set_in (path : list string) (file new : value) : value :=
  match path with
  | [] => new
  | k :: ks => VObj (set_prop k (set_in ks (get_own file k) new) (as_object file))
  end.

(** [provideDefaults()] of [ProjectConfig]. *)
Definition provideDefaults : list (string * value) :=
  [("name", VStr "New Ionic App"); ("integrations", VObj [])].

(** Modelled from the spec: the getter [c] of [BaseConfig], the "scoped view":
    the object under the prefix, over the defaults the subclass provides. *)
Definition c (this : BaseConfig) (file : value) : list (string * value) :=
  assign provideDefaults (as_object (get_in (pathPrefix this) file)).

(** Modelled from the spec: [set] of [BaseConfig], a write through the scoped
    view; the file after [this.set(property, value)]. *)
Definition set (this : BaseConfig) (property : string) (v : value) (file : value) : value :=
  set_in (pathPrefix this) file (VObj (set_prop property v (c this file))).

(** Modelled from the spec: [unset] of [BaseConfig], a removal through the
    scoped view; the file after [this.unset(property)]. *)
Definition unset (this : BaseConfig) (property : string) (file : value) : value :=
  set_in (pathPrefix this) file (VObj (delete_prop property (c this file))).

(** Modelled from the spec: [get] of [BaseConfig], a read through the scoped
    view; [this.get(property)]. *)
Definition get (this : BaseConfig) (property : string) (file : value) : value :=
  lookup property (c this file).

(** *** The constructor of ProjectConfig *)

(** [new ProjectConfig(p, { pathPrefix })]: the file after the "<4.0.0 project
    config migration". *)
Definition ProjectConfig (this : BaseConfig) (file : value) : value :=
  let c0 := c this file in
  if is_string (lookup "app_id" c0) then
    let file1 :=
      if truthy (lookup "app_id" c0)
      then set this "pro_id" (lookup "app_id" c0) file
      else file in
    unset this "app_id" file1
  else file.

(** The [config] getter of [Project]: the options it passes. *)
Definition config_of (filePath : string) (name : option string) : BaseConfig :=
  match name with
  | None => {| p := filePath; pathPrefix := [] |}
  | Some n => {| p := filePath; pathPrefix := ["projects"; n] |}
  end.

End Config.

(** ** Names for display *)

(** [prettyProjectName(type)]: [None] is an argument left out. *)
Definition prettyProjectName (type : option string) : string :=
  match type with
  | None => "Unknown"
  | Some t =>
      if String.eqb t "" then "Unknown"
      else if String.eqb t "angular" then "@ionic/angular"
      else if String.eqb t "ionic-angular" then "Ionic 2/3"
      else if String.eqb t "ionic1" then "Ionic 1"
      else t
  end.

(** [prettyProjectTooling(type)] *)
Definition prettyProjectTooling (type : option string) : string :=
  match type with
  | None => "unknown tooling"
  | Some t =>
      if String.eqb t "angular" then "Angular 6+, Angular CLI"
      else if String.eqb t "ionic-angular" then "Angular 5, @ionic/app-scripts"
      else if String.eqb t "ionic1" then "AngularJS, gulp, sass"
      else "unknown tooling"
  end.

(** ** getProject *)

(** What [getProject] logs.  The text of a message is laid out by [chalk],
    [prettyPath] and [wordWrap], which the module imports; a message is kept
    as which one it is, with the values it is written from. *)
Inductive Message : Type :=
| MsgLoadError (configPath : string) (cause : option exception)
| MsgMultiMissingName (configPath : string)
| MsgMultiMissingConfig (name : value) (configPath : string)
| MsgMissingType (configPath : string)
| MsgInvalidType (type : value) (configPath : string).

Definition ErrorCode_eqb (a b : ProjectDetailsErrorCode) : bool :=
  match a, b with
  | ERR_INVALID_PROJECT_FILE, ERR_INVALID_PROJECT_FILE
  | ERR_INVALID_PROJECT_TYPE, ERR_INVALID_PROJECT_TYPE
  | ERR_MISSING_PROJECT_TYPE, ERR_MISSING_PROJECT_TYPE
  | ERR_MULTI_MISSING_CONFIG, ERR_MULTI_MISSING_CONFIG
  | ERR_MULTI_MISSING_NAME, ERR_MULTI_MISSING_NAME => true
  | _, _ => false
  end.

(** [errorCodes.includes(c)] *)
Definition includes_code (l : list ProjectDetailsErrorCode) (c : ProjectDetailsErrorCode) : bool :=
  existsb (ErrorCode_eqb c) l.

Section Environment.

Context {World BuildRunner ServeRunner GenerateRunner : Type}.
Context {imports : Imports World BuildRunner ServeRunner GenerateRunner}.

(** The logger of the dependencies ([deps.log]): what a call does to the
    world. *)
Class ILogger : Type := {
  log_error : Message -> World -> World;
  log_warn : Message -> World -> World;
  log_nl : World -> World
}.

Context {log : ILogger}.

Definition do_log (f : World -> World) : M World unit := fun w => (inr tt, f w).

(** [if (b) { c }] *)
Definition when (b : bool) (c : M World unit) : M World unit :=
  if b then c else ret tt.

(** The body of [getProject] from the point where the result is there: the
    messages, then the project. *)
Definition getProject_after (result : ProjectDetailsResult)
  : M World (option (IProject World BuildRunner ServeRunner GenerateRunner)) :=
  let errorCodes := codes (errors result) in
  let type := type result in
  _ <- match find (fun e => ErrorCode_eqb (code e) ERR_INVALID_PROJECT_FILE)
               (errors result) with
       | Some err =>
           _ <- do_log (log_error (MsgLoadError (configPath result) (error err))) ;;
           do_log log_nl
       | None => ret tt
       end ;;
  _ <- match context result with
       | multiapp =>
           _ <- when (includes_code errorCodes ERR_MULTI_MISSING_NAME)
                  (_ <- do_log (log_warn (MsgMultiMissingName (configPath result))) ;;
                   do_log log_nl) ;;
           when (truthy (to_value (name result))
                 && includes_code errorCodes ERR_MULTI_MISSING_CONFIG)
             (do_log (log_warn (MsgMultiMissingConfig (to_value (name result))
                                  (configPath result))))
       | _ => ret tt
       end ;;
  _ <- when (includes_code errorCodes ERR_MISSING_PROJECT_TYPE)
         (_ <- do_log (log_warn (MsgMissingType (configPath result))) ;;
          do_log log_nl) ;;
  if negb (truthy (to_value type)) then ret None
  else if includes_code errorCodes ERR_INVALID_PROJECT_TYPE then
    _ <- do_log (log_error (MsgInvalidType (to_value type) (configPath result))) ;;
    _ <- do_log log_nl ;;
    ret None
  else
    match context result with
    | app =>
        p <- createProjectFromType (configPath result) None (to_value type) ;;
        ret (Some p)
    | multiapp =>
        p <- createProjectFromType (configPath result) (name result) (to_value type) ;;
        ret (Some p)
    | unknown => ret None
    end.

Definition getProject (rootDirectory : option string) (args : value) (execPath : string)
  : M World (option (IProject World BuildRunner ServeRunner GenerateRunner)) :=
  match rootDirectory with
  | None => ret None
  | Some rootDirectory =>
      if String.eqb rootDirectory "" then ret None
      else
        let details := {| rootDirectory := rootDirectory; args := args;
                          execPath := execPath; _result := None |} in
        rr <- result details ;;
        getProject_after (fst rr)
  end.

End Environment.

Arguments ILogger World : clear implicits.
Arguments getProject_after {World BuildRunner ServeRunner GenerateRunner imports log} _ _.
Arguments getProject {World BuildRunner ServeRunner GenerateRunner imports log} _ _ _ _.

(** ** Project: what it reads from its config *)

(** The messages of the exceptions are written without the styling of [chalk]
    and [prettyPath]. *)
Module Proj.

(** An integration as [getIntegration] returns it. *)
Record ProjectIntegration : Type := mkIntegration {
  enabled : bool;
  root : string
}.

Section Methods.

(** [path.resolve] and [path.dirname]. *)
Variable path_resolve : string -> string -> string.
Variable path_dirname : string -> string.

(** What the engine's prototypes give: see [get_property]. *)
Variable prototype_member : value -> string -> value.

(** The two constructor arguments [Project] keeps for its config. *)
Record Project : Type := mkProject {
  filePath : string;
  name : option string
}.

Definition rootDirectory (this : Project) : string := path_dirname (filePath this).

(** The getter [config]: a new [ProjectConfig] on each access, whose
    construction runs on the file. *)
Definition config (this : Project) : M value Config.BaseConfig :=
  fun file =>
    let cfg := Config.config_of (filePath this) (name this) in
    (inr cfg, Config.ProjectConfig cfg file).

(** [cfg.get(property)] *)
Definition config_get (cfg : Config.BaseConfig) (property : string) : M value value :=
  fun file => (inr (Config.get cfg property file), file).

Definition resolve_root (base : string) (q : value) : M value string :=
  match q with
  | VStr s => ret (path_resolve base s)
  | _ => throw (TypeError "The path argument must be of type string")
  end.

Definition directory (this : Project) : M value string :=
  cfg <- config this ;;
  root <- config_get cfg "root" ;;
  if negb (truthy root) then ret (rootDirectory this)
  else resolve_root (rootDirectory this) root.

Definition requireProId (this : Project) : M value value :=
  cfg <- config this ;;
  proId <- config_get cfg "pro_id" ;;
  if negb (truthy proId)
  then throw (FatalException
                ("Your project file (" ++ filePath this
                 ++ ") does not contain 'pro_id'. Run ionic link.")%string)
  else ret proId.

(** [v !== false] *)
Definition not_false (v : value) : bool :=
  match v with
  | VBool false => false
  | _ => true
  end.

Definition getIntegration (this : Project) (n : string) : M value (option ProjectIntegration) :=
  cfg <- config this ;;
  integrations <- config_get cfg "integrations" ;;
  integration <- get_computed_member prototype_member integrations n ;;
  if truthy integration then
    let enabled := not_false (get_own integration "enabled") in
    root <- match get_own integration "root" with
            | VUndefined => directory this
            | r => resolve_root (rootDirectory this) r
            end ;;
    ret (Some {| enabled := enabled; root := root |})
  else ret None.

(** [this.name ? this.name : 'default'] *)
Definition name_or_default (this : Project) : string :=
  match name this with
  | Some s => if String.eqb s "" then "default" else s
  | None => "default"
  end.

Definition requireIntegration (this : Project) (n : string) : M value ProjectIntegration :=
  integration <- getIntegration this n ;;
  match integration with
  | None =>
      throw (FatalException
               ("Could not find " ++ n ++ " integration in the "
                ++ name_or_default this ++ " project.")%string)
  | Some i =>
      if negb (enabled i)
      then throw (FatalException
                    (n ++ " integration is disabled in the "
                     ++ name_or_default this ++ " project.")%string)
      else ret i
  end.

End Methods.

End Proj.

(** ** Computations without effect *)

(** A computation that leaves the world as it finds it and throws nothing but
    a [TypeError]. *)
Definition quiet {World A : Type} (c : M World A) : Prop :=
  forall w : World,
    snd (c w) = w /\ forall e, fst (c w) = inl e -> exists msg, e = TypeError msg.

(** ** The specification's wording of the explicit type step *)




(** ** A concrete world *)

Module Demo.

(** Files by path, with the document each parses to ([None]: not valid JSON),
    the project types whose marker is there, and the paths read so far. *)
Record World : Type := mkWorld {
  files : list (string * option value);
  markers : list ProjectType;
  reads : list string
}.

Fixpoint find_file (path : string) (l : list (string * option value)) : option (option value) :=
  match l with
  | [] => None
  | (q, f) :: rest => if String.eqb path q then Some f else find_file path rest
  end.

Definition read_file (path : string) : M World value :=
  fun w =>
    let w' := {| files := files w; markers := markers w; reads := path :: reads w |} in
    match find_file path (files w) with
    | Some (Some v) => (inr v, w')
    | Some None => (inl (OtherError "SyntaxError" "Unexpected token in JSON"), w')
    | None => (inl (OtherError "Error" "ENOENT: no such file or directory"), w')
    end.

(** Enough of [path.resolve] for the paths below: an absolute second argument
    wins, a relative one is put under the first. *)
Definition resolve (base q : string) : string :=
  if String.prefix "/" q then q else (base ++ "/" ++ q)%string.

Definition ProjectType_eqb (a b : ProjectType) : bool :=
  String.eqb (type_name a) (type_name b).

(** Modelled from the spec: "A config is single-app iff it lacks a [projects]
    mapping; multi-app iff it has one." *)
Definition single_shape (v : value) : bool :=
  match v with
  | VObj l => negb (truthy (lookup "projects" l))
  | _ => false
  end.

Definition multi_shape (v : value) : bool :=
  match v with
  | VObj l => match lookup "projects" l with VObj _ => true | _ => false end
  | _ => false
  end.

Definition require_runner (what : string) (t : ProjectType) : M World string :=
  match t with
  | custom => throw (RunnerNotFoundException ("no " ++ what ++ " runner")%string)
  | _ => ret (what ++ ":" ++ type_name t)%string
  end.

(** Of the prototypes of the engine, [Object.prototype]: the mappings of the
    configurations below are plain objects. *)
Definition inherited (v : value) (k : string) : value :=
  match v with
  | VObj _ => Object_prototype_member k
  | _ => VUndefined
  end.

#[export] Instance imports : Imports World string string string := {|
  prototype_member := inherited;
  PROJECT_FILE := "ionic.config.json";
  PROJECT_TYPES := [angular; ionic_angular; ionic1; custom];
  path_resolve := resolve;
  readJsonFile := read_file;
  isProjectConfig := single_shape;
  isMultiProjectConfig := multi_shape;
  variant_detected := fun t _ _ w => existsb (ProjectType_eqb t) (markers w);
  variant_requireBuildRunner := fun t _ _ => require_runner "build" t;
  variant_requireServeRunner := fun t _ _ => require_runner "serve" t;
  variant_requireGenerateRunner := fun t _ _ => require_runner "generate" t
|}.

Definition obj_app1 : value := VObj [("name", VStr "app1"); ("root", VStr "apps/app1")].
Definition obj_app2 : value :=
  VObj [("name", VStr "app2"); ("root", VStr "apps/app2"); ("type", VStr "angular")].

(** A multi-app config with a default project. *)
Definition cfg_multi : value :=
  VObj [("projects", VObj [("app1", obj_app1); ("app2", obj_app2)]);
        ("defaultProject", VStr "app1")].

(** A multi-app config without one, and a project whose [root] is not a
    string. *)
Definition cfg_multi_bare : value :=
  VObj [("projects", VObj [("bad", VObj [("root", VNum 5)]); ("app2", obj_app2)])].

(** Two projects in the order written, whose roots both contain
    [/ws/apps/v2]; the key of the second is an array index. *)
Definition written_numbered : list (string * value) :=
  [("web", VObj [("root", VStr "apps")]); ("2", VObj [("root", VStr "apps/v2")])].

Definition cfg_numbered : value := VObj [("projects", object_of written_numbered)].

(** The projects of [cfg_multi] and of [cfg_multi_bare], as written. *)
Definition written_multi : list (string * value) := [("app1", obj_app1); ("app2", obj_app2)].
Definition written_bad_root : list (string * value) :=
  [("bad", VObj [("root", VNum 5)]); ("app2", obj_app2)].

(** Single-app configs. *)
Definition cfg_typed : value := VObj [("name", VStr "app"); ("type", VStr "ionic1")].
Definition cfg_untyped : value := VObj [("name", VStr "app")].
Definition cfg_bool_type : value := VObj [("name", VStr "app"); ("type", VBool true)].
Definition cfg_other_type : value := VObj [("name", VStr "app"); ("type", VStr "vue")].

Definition world_of (file : option (option value)) (ms : list ProjectType) : World :=
  {| files := match file with
              | Some f => [("/ws/ionic.config.json", f)]
              | None => []
              end;
     markers := ms;
     reads := [] |}.

Definition details (a : value) (cwd : string) : ProjectDetails :=
  {| rootDirectory := "/ws"; args := a; execPath := cwd; _result := None |}.

Definition no_args : value := VObj [("_", VArr [])].
Definition project_arg (n : string) : value := VObj [("_", VArr []); ("project", VStr n)].

End Demo.

(** The concrete world with what was logged, latest first. *)
Module DemoLog.

Inductive Level : Type := LError | LWarn | LNewline.

Record World : Type := mkWorld {
  base : Demo.World;
  logged : list (Level * option Message)
}.

Definition on_base {A : Type} (c : M Demo.World A) : M World A :=
  fun w =>
    let (r, b) := c (base w) in
    (r, {| base := b; logged := logged w |}).

#[export] Instance imports : Imports World string string string := {|
  prototype_member := Demo.inherited;
  PROJECT_FILE := "ionic.config.json";
  PROJECT_TYPES := [angular; ionic_angular; ionic1; custom];
  path_resolve := Demo.resolve;
  readJsonFile := fun path => on_base (Demo.read_file path);
  isProjectConfig := Demo.single_shape;
  isMultiProjectConfig := Demo.multi_shape;
  variant_detected := fun t _ _ w => existsb (Demo.ProjectType_eqb t) (Demo.markers (base w));
  variant_requireBuildRunner := fun t _ _ => on_base (Demo.require_runner "build" t);
  variant_requireServeRunner := fun t _ _ => on_base (Demo.require_runner "serve" t);
  variant_requireGenerateRunner := fun t _ _ => on_base (Demo.require_runner "generate" t)
|}.

Definition say (l : Level) (m : option Message) (w : World) : World :=
  {| base := base w; logged := (l, m) :: logged w |}.

#[export] Instance logger : ILogger World := {|
  log_error := fun m => say LError (Some m);
  log_warn := fun m => say LWarn (Some m);
  log_nl := say LNewline None
|}.

Definition world_of (file : option (option value)) (ms : list ProjectType) : World :=
  {| base := Demo.world_of file ms; logged := [] |}.

(** Enough of [path.dirname] for the project file of the workspace. *)
Definition dirname (q : string) : string :=
  if String.eqb q "/ws/ionic.config.json" then "/ws" else ".".

Definition project : Proj.Project := Proj.mkProject "/ws/ionic.config.json" None.

(** A project file with a legacy [app_id] and two integrations. *)
Definition file_legacy : value :=
  VObj [("name", VStr "app"); ("app_id", VStr "X"); ("pro_id", VStr "old");
        ("integrations",
         VObj [("cordova", VObj []);
               ("gulp", VObj [("enabled", VBool false); ("root", VStr "tools")])])].

End DemoLog.

(** ** Properties of the resolution *)

Section Properties.

Context {World BuildRunner ServeRunner GenerateRunner : Type}.
Context {imports : Imports World BuildRunner ServeRunner GenerateRunner}.

(** The file [determine] reads. *)
Definition config_file (this : ProjectDetails) : string :=
  path_resolve (rootDirectory this) PROJECT_FILE.

(** The marker probe of a variant, as type detection runs it. *)
Definition marker_present (this : ProjectDetails) (t : ProjectType) (w : World) : bool :=
  variant_detected t (config_file this) None w.

(** The resolved root directory of a configured project, when it has one. *)
Definition project_dir (this : ProjectDetails) (v : value) : option string :=
  match get_own v "root" with
  | VStr r =>
      if truthy v && negb (String.eqb r "")
      then Some (path_resolve (rootDirectory this) r)
      else None
  | _ => None
  end.

(** The working directory of the invocation starts with that root. *)
Definition contains_cwd (this : ProjectDetails) (v : value) : bool :=
  match project_dir this v with
  | Some d => String.prefix d (execPath this)
  | None => false
  end.

(** The [root] of a configured project is a string when it is set. *)
Definition root_well_typed (v : value) : bool :=
  negb (truthy v && truthy (get_own v "root")) || is_string (get_own v "root").

(** The three steps of name resolution, in the order [determineMultiApp]
    passes them to [resolveValue]. *)
Definition name_steps (this : ProjectDetails) (cfg : value) : list (M World (option value)) :=
  [getNameFromArgs this; getNameFromPathMatch this cfg; getNameFromDefaultProject this cfg].

(** [config.projects[name]], as [determineMultiApp] reads it. *)
Definition project_entry (cfg : value) (n : value) : value :=
  get_property prototype_member (get_own cfg "projects") (js_String n).


(** "Iteration order = declaration order in the mapping; first match wins":
    the first project, in the order written, whose resolved root directory
    the working directory starts with. *)
Fixpoint first_containing (this : ProjectDetails) (written : list (string * value))
  : option value :=
  match written with
  | [] => None
  | (k, v) :: rest =>
      if contains_cwd this v then Some (VStr k) else first_containing this rest
  end.

(** The path-containment step selects that project, on the config whose
    [projects] were written in the order [written]. *)
Definition path_match_as_worded (this : ProjectDetails) (written : list (string * value))
    (w : World) : Prop :=
  getNameFromPathMatch this (VObj [("projects", object_of written)]) w =
    (inr (first_containing this written), w).

Ltac run := unfold bind, ret, throw, try_catch in *; simpl in *.

(** C5. When reading the project file fails (absent, unreadable or not valid
    JSON), [determine] returns context ['unknown'], the single error
    [ERR_INVALID_PROJECT_FILE] wrapping the failure, no config, no type and no
    name, and leaves the world as the failed read left it: nothing else is
    consulted. *)
Theorem C5_read_failure_is_unknown :
  forall (this : ProjectDetails) (w w1 : World) (e : exception),
    readJsonFile (config_file this) w = (inl e, w1) ->
    determine this w =
      (inr {| configPath := config_file this; context := unknown; config := None;
              type := None; name := None;
              errors := [mkProjectDetailsError "Could not read project file."
                           ERR_INVALID_PROJECT_FILE (Some e)] |}, w1) /\
    (forall r w', determine this w = (inr r, w') ->
       context r = unknown /\ codes (errors r) = [ERR_INVALID_PROJECT_FILE] /\
       type r = None /\ w' = w1).
Proof.
  intros this w w1 e Hread.
  assert (Hd : determine this w =
      (inr {| configPath := config_file this; context := unknown; config := None;
              type := None; name := None;
              errors := [mkProjectDetailsError "Could not read project file."
                           ERR_INVALID_PROJECT_FILE (Some e)] |}, w1)).
  { unfold determine, config_file in *. run. rewrite Hread. reflexivity. }
  split; [exact Hd|].
  intros r w' Hr. rewrite Hd in Hr. inversion Hr; subst. simpl. auto.
Qed.

(** C10. When the project file reads and parses but the document has neither
    the single-app nor the multi-app shape, [determine] returns context
    ['unknown'] with the document as [config] and an empty list of errors. *)
Theorem C10_unrecognized_shape_has_no_error :
  forall (this : ProjectDetails) (w w1 : World) (c : value),
    readJsonFile (config_file this) w = (inr c, w1) ->
    isProjectConfig c = false ->
    isMultiProjectConfig c = false ->
    determine this w =
      (inr {| configPath := config_file this; context := unknown; config := Some c;
              type := None; name := None; errors := [] |}, w1).
Proof.
  intros this w w1 c Hread Hs Hm.
  unfold determine, config_file in *. run. rewrite Hread. simpl.
  rewrite Hs, Hm. destruct (truthy c); reflexivity.
Qed.

(** C6. Once [result()] has returned on an instance, the result is cached in
    it (on a fresh instance it is the one [determine] computed), and every
    later call on that instance returns the same result, whatever the world
    has become in the meantime (so also when the project file changed), and
    leaves that world untouched: nothing is read again. *)
Theorem C6_result_is_memoized :
  forall (this this' : ProjectDetails) (w w' : World) (r : ProjectDetailsResult),
    result this w = (inr (r, this'), w') ->
    _result this' = Some r /\
    (_result this = None -> determine this w = (inr r, w')) /\
    forall w2 : World, result this' w2 = (inr (r, this'), w2).
Proof.
  intros this this' w w' r H.
  unfold result in H.
  destruct (_result this) as [r0|] eqn:Hcache.
  - run. inversion H; subst. split; [assumption|]. split; [discriminate|].
    intros w2. unfold result. rewrite Hcache. reflexivity.
  - run. destruct (determine this w) as [[e|r0] w0]; inversion H; subst.
    split; [reflexivity|]. split; [reflexivity|].
    intros w2. unfold result. reflexivity.
Qed.

(** The shape shared by the three runner accessors. *)
Lemma get_runner_outcome :
  forall (R : Type) (require : M World R) (w : World),
    let get := try_catch (r <- require ;; ret (Some r))
                 (fun e => if negb (instanceof_RunnerNotFoundException e)
                           then throw e else ret None) in
    (forall r w', require w = (inr r, w') -> get w = (inr (Some r), w')) /\
    (forall msg w', require w = (inl (RunnerNotFoundException msg), w') ->
                    get w = (inr None, w')) /\
    (forall e w', require w = (inl e, w') ->
                  instanceof_RunnerNotFoundException e = false ->
                  get w = (inl e, w')) /\
    (forall w', get w = (inr None, w') ->
                exists msg, require w = (inl (RunnerNotFoundException msg), w')).
Proof.
  intros R require w get. subst get. run.
  repeat split.
  - intros r w' H. rewrite H. reflexivity.
  - intros msg w' H. rewrite H. reflexivity.
  - intros e w' H He. rewrite H. rewrite He. reflexivity.
  - intros w' H. destruct (require w) as [[e|r] w0].
    + destruct e; simpl in H; inversion H; subst. eexists; reflexivity.
    + inversion H.
Qed.

(** C7. For each of Build, Serve and Generate: [getXRunner] returns the runner
    [requireXRunner] returns; it returns [undefined] when [requireXRunner]
    throws a [RunnerNotFoundException], and only then; and it throws the same
    exception when [requireXRunner] throws anything else. *)
Theorem C7_get_runner_catches_only_not_found :
  forall (this : IProject World BuildRunner ServeRunner GenerateRunner) (w : World),
    ((forall r w', requireBuildRunner this w = (inr r, w') ->
                   getBuildRunner this w = (inr (Some r), w')) /\
     (forall msg w', requireBuildRunner this w = (inl (RunnerNotFoundException msg), w') ->
                     getBuildRunner this w = (inr None, w')) /\
     (forall e w', requireBuildRunner this w = (inl e, w') ->
                   instanceof_RunnerNotFoundException e = false ->
                   getBuildRunner this w = (inl e, w')) /\
     (forall w', getBuildRunner this w = (inr None, w') ->
                 exists msg, requireBuildRunner this w = (inl (RunnerNotFoundException msg), w')))
    /\
    ((forall r w', requireServeRunner this w = (inr r, w') ->
                   getServeRunner this w = (inr (Some r), w')) /\
     (forall msg w', requireServeRunner this w = (inl (RunnerNotFoundException msg), w') ->
                     getServeRunner this w = (inr None, w')) /\
     (forall e w', requireServeRunner this w = (inl e, w') ->
                   instanceof_RunnerNotFoundException e = false ->
                   getServeRunner this w = (inl e, w')) /\
     (forall w', getServeRunner this w = (inr None, w') ->
                 exists msg, requireServeRunner this w = (inl (RunnerNotFoundException msg), w')))
    /\
    ((forall r w', requireGenerateRunner this w = (inr r, w') ->
                   getGenerateRunner this w = (inr (Some r), w')) /\
     (forall msg w', requireGenerateRunner this w = (inl (RunnerNotFoundException msg), w') ->
                     getGenerateRunner this w = (inr None, w')) /\
     (forall e w', requireGenerateRunner this w = (inl e, w') ->
                   instanceof_RunnerNotFoundException e = false ->
                   getGenerateRunner this w = (inl e, w')) /\
     (forall w', getGenerateRunner this w = (inr None, w') ->
                 exists msg,
                   requireGenerateRunner this w = (inl (RunnerNotFoundException msg), w'))).
Proof.
  intros this w. split; [|split].
  - exact (get_runner_outcome BuildRunner (requireBuildRunner this) w).
  - exact (get_runner_outcome ServeRunner (requireServeRunner this) w).
  - exact (get_runner_outcome GenerateRunner (requireGenerateRunner this) w).
Qed.

(** *** Type resolution *)

Lemma createProjectFromType_known :
  forall (fp : string) (n : option value) (t : ProjectType) (w : World),
    createProjectFromType fp n (type_value t) w = (inr (new_Project t fp n), w).
Proof. intros fp n t w. destruct t; reflexivity. Qed.

(** Detection returns the first type of the list whose marker is there. *)
Lemma getTypeFromDetection_loop_find :
  forall (this : ProjectDetails) (types : list ProjectType) (w : World),
    getTypeFromDetection_loop this types w =
      (inr (option_map type_value (find (fun t => marker_present this t w) types)), w).
Proof.
  intros this types w. induction types as [|t rest IH]; simpl.
  - reflexivity.
  - unfold bind. rewrite createProjectFromType_known. simpl.
    unfold marker_present, config_file in *.
    destruct (variant_detected t (path_resolve (rootDirectory this) PROJECT_FILE) None w).
    + reflexivity.
    + exact IH.
Qed.



Lemma truthy_get_member :
  forall (v : value) (k : string) (w : World),
    truthy v = true -> get_member v k w = (inr (get_own v k), w).
Proof. intros v k w H. destruct v; simpl in H; try discriminate; reflexivity. Qed.

Lemma truthy_get_computed_member :
  forall (v : value) (k : string) (w : World),
    truthy v = true ->
    get_computed_member prototype_member v k w =
      (inr (get_property prototype_member v k), w).
Proof. intros v k w H. destruct v; simpl in H; try discriminate; reflexivity. Qed.

Lemma getTypeFromConfig_outcome :
  forall (this : ProjectDetails) (cfg : value) (w : World),
    truthy cfg = true ->
    getTypeFromConfig this cfg w =
      (inr (if truthy (get_own cfg "type") then Some (get_own cfg "type") else None), w).
Proof.
  intros this cfg w H. unfold getTypeFromConfig, bind.
  rewrite (truthy_get_member _ _ _ H).
  destruct (truthy (get_own cfg "type")); reflexivity.
Qed.

Lemma type_value_truthy : forall pt, truthy (type_value pt) = true.
Proof. destruct pt; reflexivity. Qed.

(** What [determineSingleApp] returns on a config that is not [undefined] or
    [null]: it never throws and leaves the world as it was. *)
Lemma determineSingleApp_outcome :
  forall (this : ProjectDetails) (cfg : value) (w : World),
    truthy cfg = true ->
    let ty :=
      if truthy (get_own cfg "type") then Some (get_own cfg "type")
      else option_map type_value (find (fun t => marker_present this t w) PROJECT_TYPES) in
    determineSingleApp this cfg w =
      (inr {| app_config := cfg; app_type := ty;
              app_errors :=
                if negb (truthy (to_value ty)) then
                  [mkProjectDetailsError "Could not determine project type."
                     ERR_MISSING_PROJECT_TYPE None]
                else if negb (includes PROJECT_TYPES (to_value ty)) then
                  [mkProjectDetailsError "Invalid project type."
                     ERR_INVALID_PROJECT_TYPE None]
                else [] |}, w).
Proof.
  intros this cfg w H ty. subst ty.
  unfold determineSingleApp. simpl. unfold bind at 1. unfold bind at 1.
  rewrite (getTypeFromConfig_outcome this cfg w H).
  destruct (truthy (get_own cfg "type")) eqn:Ht; simpl.
  - rewrite Ht. unfold ret. simpl. rewrite Ht. reflexivity.
  - unfold bind. unfold getTypeFromDetection. rewrite getTypeFromDetection_loop_find.
    destruct (find (fun t => marker_present this t w) PROJECT_TYPES) as [t|].
    + destruct t; reflexivity.
    + reflexivity.
Qed.

Lemma includes_enum :
  forall (types : list ProjectType) (v : value),
    includes types v = true -> exists pt, In pt types /\ v = type_value pt.
Proof.
  intros types v H. unfold includes in H. apply existsb_exists in H.
  destruct H as [pt [Hin Heq]]. exists pt. split; [exact Hin|].
  destruct v; simpl in Heq; try discriminate.
  apply String.eqb_eq in Heq. subst. reflexivity.
Qed.

(** The two diagnostics of type resolution, on any result it returns. *)
Lemma determineSingleApp_errors :
  forall (this : ProjectDetails) (cfg : value) (w w' : World)
         (r : ProjectDetailsSingleAppResult),
    truthy cfg = true ->
    determineSingleApp this cfg w = (inr r, w') ->
    (app_type r = None -> codes (app_errors r) = [ERR_MISSING_PROJECT_TYPE]) /\
    (forall t, app_type r = Some t -> truthy t = true) /\
    (forall t, app_type r = Some t -> (forall pt, t <> type_value pt) ->
               codes (app_errors r) = [ERR_INVALID_PROJECT_TYPE]) /\
    (forall t, app_type r = Some t ->
               (exists pt, t = type_value pt) \/
               In ERR_INVALID_PROJECT_TYPE (codes (app_errors r))).
Proof.
  intros this cfg w w' r Hc Hr.
  rewrite (determineSingleApp_outcome this cfg w Hc) in Hr.
  remember (if truthy (get_own cfg "type") then Some (get_own cfg "type")
            else option_map type_value
                   (find (fun t => marker_present this t w) PROJECT_TYPES)) as ty eqn:Ety.
  assert (Hty : forall t, ty = Some t -> truthy t = true).
  { intros t Ht. subst ty. destruct (truthy (get_own cfg "type")) eqn:E.
    - inversion Ht; subst. exact E.
    - destruct (find (fun t0 => marker_present this t0 w) PROJECT_TYPES);
        simpl in Ht; inversion Ht. apply type_value_truthy. }
  clear Ety. inversion Hr; subst; clear Hr. simpl.
  repeat split.
  - intros Hn. rewrite Hn. reflexivity.
  - exact Hty.
  - intros t Ht Hout. rewrite Ht. simpl. rewrite (Hty t Ht). simpl.
    destruct (includes PROJECT_TYPES t) eqn:Hin.
    + apply includes_enum in Hin. destruct Hin as [pt [_ Heq]].
      exfalso. exact (Hout pt Heq).
    + reflexivity.
  - intros t Ht. rewrite Ht. simpl. rewrite (Hty t Ht). simpl.
    destruct (includes PROJECT_TYPES t) eqn:Hin.
    + left. apply includes_enum in Hin. destruct Hin as [pt [_ Heq]].
      exists pt. exact Heq.
    + right. simpl. left. reflexivity.
Qed.


(** *** Name resolution *)

Lemma getNameFromArgs_outcome :
  forall (this : ProjectDetails) (w : World),
    exists o,
      (forall w2 : World, getNameFromArgs this w2 = (inr o, w2)) /\
      (forall n, o = Some n -> truthy n = true) /\
      (forall a s, args this = VObj a -> lookup "project" a = VStr s -> s <> "" ->
                   o = Some (VStr s)).
Proof.
  intros this w. unfold getNameFromArgs.
  destruct (truthy (args this) && truthy (get_own (args this) "project")) eqn:Hp.
  - destruct (truthy (VStr (js_String (get_own (args this) "project")))) eqn:Hn.
    + eexists. split; [reflexivity|]. split.
      * intros n Hs. inversion Hs; subst. exact Hn.
      * intros a s Ha Hl _. rewrite Ha. simpl. rewrite Hl. reflexivity.
    + eexists. split; [reflexivity|]. split.
      * intros n Hs. discriminate.
      * intros a s Ha Hl Hs. exfalso. rewrite Ha in Hn. simpl in Hn. rewrite Hl in Hn.
        simpl in Hn. apply Bool.negb_false_iff in Hn. apply String.eqb_eq in Hn.
        exact (Hs Hn).
  - simpl. eexists. split; [reflexivity|]. split.
    + intros n Hs. discriminate.
    + intros a s Ha Hl Hs. exfalso. rewrite Ha in Hp. simpl in Hp. rewrite Hl in Hp.
      simpl in Hp. apply Bool.negb_false_iff in Hp. apply String.eqb_eq in Hp.
      exact (Hs Hp).
Qed.


Lemma projects_truthy :
  forall (cfg : value) (ps : list (string * value)),
    get_own cfg "projects" = VObj ps -> truthy cfg = true.
Proof.
  intros cfg ps H. destruct cfg; simpl in *; try discriminate; try reflexivity.
  - destruct (String.length s) eqn:E; [|destruct s; [discriminate|reflexivity]].
    destruct s; [simpl in H; discriminate|discriminate].
Qed.

Lemma getNameFromPathMatch_loop_hit :
  forall (this : ProjectDetails) (k : string) (v : value)
         (rest : list (string * value)) (w : World),
    contains_cwd this v = true ->
    getNameFromPathMatch_loop this ((k, v) :: rest) w = (inr (Some (VStr k)), w).
Proof.
  intros this k v rest w H. unfold contains_cwd, project_dir in H. simpl.
  destruct (get_own v "root") as [| |b|n|r|l|l|f] eqn:Hr; try discriminate.
  destruct (truthy v) eqn:Hv; simpl in *; [|discriminate].
  destruct (String.eqb r "") eqn:He; simpl in *; [discriminate|].
  unfold bind, ret. simpl. rewrite H. reflexivity.
Qed.

Lemma getNameFromPathMatch_loop_skip :
  forall (this : ProjectDetails) (k : string) (v : value)
         (rest : list (string * value)) (w : World),
    root_well_typed v = true ->
    contains_cwd this v = false ->
    getNameFromPathMatch_loop this ((k, v) :: rest) w =
      getNameFromPathMatch_loop this rest w.
Proof.
  intros this k v rest w Hwt H. unfold contains_cwd, project_dir in H.
  unfold root_well_typed in Hwt. simpl.
  destruct (truthy v) eqn:Hv; simpl in *; [|reflexivity].
  destruct (get_own v "root") as [| |b|n|r|l|l|f] eqn:Hr; simpl in *;
    try reflexivity; try discriminate.
  - destruct b; [discriminate|reflexivity].
  - destruct (Z.eqb n 0); [reflexivity|discriminate].
  - destruct (String.eqb r "") eqn:He; simpl in *; [reflexivity|].
    unfold bind, ret. simpl. rewrite H. reflexivity.
Qed.

Lemma getNameFromPathMatch_loop_first :
  forall (this : ProjectDetails) (l1 l2 : list (string * value)) (k : string) (v : value)
         (w : World),
    (forall kv, In kv l1 ->
                root_well_typed (snd kv) = true /\ contains_cwd this (snd kv) = false) ->
    contains_cwd this v = true ->
    getNameFromPathMatch_loop this (l1 ++ (k, v) :: l2) w = (inr (Some (VStr k)), w).
Proof.
  intros this l1 l2 k v w Hl1 Hv. induction l1 as [|[k' v'] l1 IH].
  - apply getNameFromPathMatch_loop_hit. exact Hv.
  - destruct (Hl1 (k', v') (or_introl eq_refl)) as [Hwt Hno]. simpl in Hwt, Hno.
    change (((k', v') :: l1) ++ (k, v) :: l2) with ((k', v') :: (l1 ++ (k, v) :: l2)).
    rewrite (getNameFromPathMatch_loop_skip this k' v' _ w Hwt Hno).
    apply IH. intros kv Hin. apply Hl1. right. exact Hin.
Qed.

Lemma getNameFromPathMatch_loop_none :
  forall (this : ProjectDetails) (l : list (string * value)) (w : World),
    (forall kv, In kv l ->
                root_well_typed (snd kv) = true /\ contains_cwd this (snd kv) = false) ->
    getNameFromPathMatch_loop this l w = (inr None, w).
Proof.
  intros this l w Hl. induction l as [|[k' v'] l IH].
  - reflexivity.
  - destruct (Hl (k', v') (or_introl eq_refl)) as [Hwt Hno]. simpl in Hwt, Hno.
    rewrite (getNameFromPathMatch_loop_skip this k' v' _ w Hwt Hno).
    apply IH. intros kv Hin. apply Hl. right. exact Hin.
Qed.

(** The loop never changes the world, whether it returns or throws. *)
Lemma getNameFromPathMatch_loop_world :
  forall (this : ProjectDetails) (l : list (string * value)) (w : World),
    snd (getNameFromPathMatch_loop this l w) = w.
Proof.
  intros this l w. induction l as [|[k v] l IH]; simpl.
  - reflexivity.
  - destruct (truthy v && truthy (get_own v "root")); [|exact IH].
    unfold bind. destruct (get_own v "root"); simpl; try reflexivity.
    destruct (String.prefix (path_resolve (rootDirectory this) s) (execPath this)).
    + reflexivity.
    + exact IH.
Qed.

Lemma getNameFromPathMatch_on_projects :
  forall (this : ProjectDetails) (cfg : value) (ps : list (string * value)) (w : World),
    get_own cfg "projects" = VObj ps ->
    getNameFromPathMatch this cfg w = getNameFromPathMatch_loop this ps w.
Proof.
  intros this cfg ps w Hps. unfold getNameFromPathMatch, bind.
  rewrite (truthy_get_member _ _ _ (projects_truthy cfg ps Hps)). rewrite Hps. reflexivity.
Qed.

(** *** Enumeration order *)

Lemma In_insert_index :
  forall (n : N) (kv : string * value) (l : list (N * (string * value)))
         (x : N * (string * value)),
    In x (insert_index n kv l) -> x = (n, kv) \/ In x l.
Proof.
  intros n kv l x. induction l as [|[m y] l IH]; simpl.
  - intros [H|[]]. left. symmetry. exact H.
  - destruct (N.leb n m); simpl.
    + intros [H|H]; [left; symmetry; exact H|right; exact H].
    + intros [H|H]; [right; left; exact H|].
      destruct (IH H) as [H'|H']; [left; exact H'|right; right; exact H'].
Qed.

Lemma In_index_properties :
  forall (l : list (string * value)) (x : N * (string * value)),
    In x (index_properties l) -> In (snd x) l.
Proof.
  induction l as [|[k v] l IH]; simpl; intros x H.
  - exact H.
  - destruct (array_index k) as [n|].
    + destruct (In_insert_index _ _ _ _ H) as [Hx|Hx].
      * left. subst x. reflexivity.
      * right. exact (IH x Hx).
    + right. exact (IH x H).
Qed.

(** Enumeration visits nothing that was not written. *)
Lemma In_enumeration_order :
  forall (written : list (string * value)) (kv : string * value),
    In kv (enumeration_order written) -> In kv written.
Proof.
  intros written kv H. unfold enumeration_order in H. apply in_app_or in H.
  destruct H as [H|H].
  - apply in_map_iff in H. destruct H as [x [Hx Hin]]. subst kv.
    exact (In_index_properties written x Hin).
  - unfold named_properties in H. apply filter_In in H. exact (proj1 H).
Qed.

(** Without array indices among the keys, enumeration is in the order
    written. *)
Lemma enumeration_order_as_written :
  forall written : list (string * value),
    (forall kv, In kv written -> array_index (fst kv) = None) ->
    enumeration_order written = written.
Proof.
  intros l H. unfold enumeration_order, named_properties.
  induction l as [|[k v] l IH]; simpl.
  - reflexivity.
  - pose proof (H (k, v) (or_introl eq_refl)) as Hk. simpl in Hk. rewrite Hk.
    assert (Hl : forall kv, In kv l -> array_index (fst kv) = None).
    { intros kv Hin. apply H. right. exact Hin. }
    specialize (IH Hl).
    destruct (index_properties l) as [|x xs] eqn:Hi.
    + simpl in *. rewrite IH. reflexivity.
    + exfalso. pose proof (In_index_properties l x) as Hx. rewrite Hi in Hx.
      specialize (Hx (or_introl eq_refl)).
      assert (Hsome : exists n, array_index (fst (snd x)) = Some n).
      { clear - Hi. revert x xs Hi. induction l as [|[k0 v0] l IHl]; simpl; intros x xs Hi.
        - discriminate.
        - destruct (array_index k0) as [n|] eqn:Hk0.
          + destruct (index_properties l) as [|[m y] ys] eqn:Hl.
            * simpl in Hi. inversion Hi; subst. exists n. exact Hk0.
            * simpl in Hi. destruct (N.leb n m).
              -- inversion Hi; subst. exists n. exact Hk0.
              -- inversion Hi; subst. exact (IHl (m, y) ys eq_refl).
          + exact (IHl x xs Hi). }
      destruct Hsome as [n Hn]. rewrite (Hl (snd x) Hx) in Hn. discriminate.
Qed.

(** C9 (amended). On a multi-app config, the path-containment step goes
    through the configured projects in the enumeration order of the [projects]
    object (the keys that are array indices first, in ascending order, then
    the other keys in the order written) and returns the name of the first one
    whose resolved root directory the working directory starts with; when no
    project has such a root it yields nothing.  When no key is an array index
    this is the first match in the order written.  (A project without [root]
    has no resolved root directory; the roots met on the way are strings.) *)
Theorem C9_path_match_first_wins :
  forall (this : ProjectDetails) (cfg : value) (written : list (string * value))
         (w : World),
    get_own cfg "projects" = object_of written ->
    (forall l1 k v l2,
        enumeration_order written = l1 ++ (k, v) :: l2 ->
        (forall kv, In kv l1 ->
                    root_well_typed (snd kv) = true /\ contains_cwd this (snd kv) = false) ->
        contains_cwd this v = true ->
        getNameFromPathMatch this cfg w = (inr (Some (VStr k)), w)) /\
    ((forall kv, In kv written ->
                 root_well_typed (snd kv) = true /\ contains_cwd this (snd kv) = false) ->
     getNameFromPathMatch this cfg w = (inr None, w)) /\
    ((forall kv, In kv written -> array_index (fst kv) = None) ->
     forall l1 k v l2,
        written = l1 ++ (k, v) :: l2 ->
        (forall kv, In kv l1 ->
                    root_well_typed (snd kv) = true /\ contains_cwd this (snd kv) = false) ->
        contains_cwd this v = true ->
        getNameFromPathMatch this cfg w = (inr (Some (VStr k)), w)).
Proof.
  intros this cfg written w Hps. unfold object_of in Hps.
  pose proof (getNameFromPathMatch_on_projects this cfg _ w Hps) as Hg.
  split; [|split].
  - intros l1 k v l2 Hsplit Hl1 Hv. rewrite Hg. rewrite Hsplit.
    apply getNameFromPathMatch_loop_first; assumption.
  - intros Hall. rewrite Hg. apply getNameFromPathMatch_loop_none.
    intros kv Hin. apply Hall. exact (In_enumeration_order written kv Hin).
  - intros Hnamed l1 k v l2 Hsplit Hl1 Hv. rewrite Hg.
    rewrite (enumeration_order_as_written written Hnamed). rewrite Hsplit.
    apply getNameFromPathMatch_loop_first; assumption.
Qed.

Lemma resolveValue_some_truthy :
  forall (fns : list (M World (option value))) (w w' : World) (n : value),
    resolveValue fns w = (inr (Some n), w') -> truthy n = true.
Proof.
  induction fns as [|fn rest IH]; intros w w' n H; simpl in H.
  - inversion H.
  - unfold bind in H. destruct (fn w) as [[e|r] w1]; [inversion H|].
    destruct (truthy (to_value r)) eqn:Hr.
    + inversion H; subst. exact Hr.
    + exact (IH _ _ _ H).
Qed.

(** What [determineMultiApp] does with the name that name resolution yields. *)
Lemma determineMultiApp_after_name :
  forall (this : ProjectDetails) (cfg : value) (ps : list (string * value)) (w : World)
         (o : option value),
    get_own cfg "projects" = VObj ps ->
    resolveValue (name_steps this cfg) w = (inr o, w) ->
    (truthy (to_value o) = false ->
     determineMultiApp this cfg w =
       (inr {| multi_config := cfg; multi_name := o; multi_type := None;
               multi_errors := [mkProjectDetailsError "Could not determine project name."
                                  ERR_MULTI_MISSING_NAME None] |}, w)) /\
    (truthy (to_value o) = true ->
     truthy (project_entry cfg (to_value o)) = false ->
     determineMultiApp this cfg w =
       (inr {| multi_config := cfg; multi_name := o; multi_type := None;
               multi_errors := [mkProjectDetailsError "Could not find project in config."
                                  ERR_MULTI_MISSING_CONFIG None] |}, w)) /\
    (truthy (to_value o) = true ->
     truthy (project_entry cfg (to_value o)) = true ->
     exists r0,
       determineSingleApp this (project_entry cfg (to_value o)) w = (inr r0, w) /\
       determineMultiApp this cfg w =
         (inr {| multi_config := cfg; multi_name := o; multi_type := app_type r0;
                 multi_errors := app_errors r0 |}, w)).
Proof.
  intros this cfg ps w o Hps Hres.
  pose proof (projects_truthy cfg ps Hps) as Hc.
  unfold name_steps in Hres.
  split; [|split].
  - intros Hf. unfold determineMultiApp. unfold bind at 1. rewrite Hres.
    rewrite Hf. reflexivity.
  - intros Ht Happ. unfold determineMultiApp. unfold bind at 1. rewrite Hres.
    rewrite Ht. unfold bind at 1. rewrite (truthy_get_member _ _ _ Hc).
    unfold bind at 1. rewrite truthy_get_computed_member by (rewrite Hps; reflexivity).
    fold (project_entry cfg (to_value o)). rewrite Happ. reflexivity.
  - intros Ht Happ.
    pose proof (determineSingleApp_outcome this _ w Happ) as Hout. simpl in Hout.
    eexists. split; [exact Hout|].
    unfold determineMultiApp. unfold bind at 1. rewrite Hres.
    rewrite Ht. unfold bind at 1. rewrite (truthy_get_member _ _ _ Hc).
    unfold bind at 1. rewrite truthy_get_computed_member by (rewrite Hps; reflexivity).
    fold (project_entry cfg (to_value o)). rewrite Happ.
    unfold bind at 1. rewrite Hout. reflexivity.
Qed.


(** The chain of the three steps. *)
Lemma name_steps_args :
  forall (this : ProjectDetails) (cfg : value) (w : World) (n : value),
    getNameFromArgs this w = (inr (Some n), w) ->
    resolveValue (name_steps this cfg) w = (inr (Some n), w).
Proof.
  intros this cfg w n H.
  destruct (getNameFromArgs_outcome this w) as [o [Ho [Htr _]]].
  rewrite Ho in H. inversion H; subst.
  unfold name_steps. simpl. unfold bind at 1. rewrite Ho. simpl.
  rewrite (Htr n eq_refl). reflexivity.
Qed.


Lemma name_steps_default :
  forall (this : ProjectDetails) (cfg : value) (w : World) (op od : option value),
    getNameFromArgs this w = (inr None, w) ->
    getNameFromPathMatch this cfg w = (inr op, w) ->
    truthy (to_value op) = false ->
    getNameFromDefaultProject this cfg w = (inr od, w) ->
    (forall n, od = Some n -> truthy n = true) ->
    resolveValue (name_steps this cfg) w = (inr od, w).
Proof.
  intros this cfg w op od Ha Hp Hop Hd Hod.
  unfold name_steps. simpl. unfold bind at 1. rewrite Ha. simpl.
  unfold bind at 1. rewrite Hp. rewrite Hop.
  unfold bind at 1. rewrite Hd.
  destruct od as [n|]; simpl.
  - rewrite (Hod n eq_refl). reflexivity.
  - reflexivity.
Qed.






(** A name that is not a property of [projects] and that no prototype of the
    mapping has a member for is not found there. *)
Lemma project_entry_absent :
  forall (cfg : value) (ps : list (string * value)) (n : value),
    get_own cfg "projects" = VObj ps ->
    lookup (js_String n) ps = VUndefined ->
    prototype_member (VObj ps) (js_String n) = VUndefined ->
    project_entry cfg n = VUndefined.
Proof.
  intros cfg ps n Hps Hl Hp. unfold project_entry, get_property. rewrite Hps.
  destruct (has_own (VObj ps) (js_String n)).
  - simpl. exact Hl.
  - exact Hp.
Qed.

(** The two diagnostics of name resolution on a multi-app config: when the
    three steps all yield nothing, the result has no name, no type and the
    error [ERR_MULTI_MISSING_NAME]; when they yield a name for which
    [config.projects[name]] is nothing, the result has that name, no type
    (type resolution is not run) and the error [ERR_MULTI_MISSING_CONFIG], as
    for a [--project=foo] where [foo] is neither among the projects nor the
    name of a member the mapping inherits. *)
Lemma determineMultiApp_name_errors :
  forall (this : ProjectDetails) (cfg : value) (ps : list (string * value)) (w : World),
    get_own cfg "projects" = VObj ps ->
    (getNameFromArgs this w = (inr None, w) ->
     getNameFromPathMatch this cfg w = (inr None, w) ->
     getNameFromDefaultProject this cfg w = (inr None, w) ->
     determineMultiApp this cfg w =
       (inr {| multi_config := cfg; multi_name := None; multi_type := None;
               multi_errors := [mkProjectDetailsError "Could not determine project name."
                                  ERR_MULTI_MISSING_NAME None] |}, w)) /\
    (forall n, resolveValue (name_steps this cfg) w = (inr (Some n), w) ->
       truthy (project_entry cfg n) = false ->
       determineMultiApp this cfg w =
         (inr {| multi_config := cfg; multi_name := Some n; multi_type := None;
                 multi_errors := [mkProjectDetailsError "Could not find project in config."
                                    ERR_MULTI_MISSING_CONFIG None] |}, w)) /\
    (forall a foo, args this = VObj a -> lookup "project" a = VStr foo -> foo <> "" ->
       lookup foo ps = VUndefined ->
       prototype_member (VObj ps) foo = VUndefined ->
       determineMultiApp this cfg w =
         (inr {| multi_config := cfg; multi_name := Some (VStr foo); multi_type := None;
                 multi_errors := [mkProjectDetailsError "Could not find project in config."
                                    ERR_MULTI_MISSING_CONFIG None] |}, w)).
Proof.
  intros this cfg ps w Hps.
  assert (Hmissing : forall n,
             resolveValue (name_steps this cfg) w = (inr (Some n), w) ->
             truthy (project_entry cfg n) = false ->
             determineMultiApp this cfg w =
               (inr {| multi_config := cfg; multi_name := Some n; multi_type := None;
                       multi_errors :=
                         [mkProjectDetailsError "Could not find project in config."
                            ERR_MULTI_MISSING_CONFIG None] |}, w)).
  { intros n Hres Hl.
    destruct (determineMultiApp_after_name this cfg ps w _ Hps Hres) as [_ [H2 _]].
    apply H2.
    - exact (resolveValue_some_truthy _ _ _ _ Hres).
    - exact Hl. }
  split; [|split].
  - intros Ha Hp Hd.
    assert (Hres : resolveValue (name_steps this cfg) w = (inr None, w)).
    { apply (name_steps_default this cfg w None None Ha Hp eq_refl Hd).
      intros n Hn. discriminate. }
    destruct (determineMultiApp_after_name this cfg ps w _ Hps Hres) as [H1 _].
    exact (H1 eq_refl).
  - exact Hmissing.
  - intros a foo Hargs Hl Hfoo Habs Hproto.
    destruct (getNameFromArgs_outcome this w) as [o [Ho [_ Hstr]]].
    pose proof (Hstr a foo Hargs Hl Hfoo) as Heq. subst o.
    apply Hmissing.
    + exact (name_steps_args this cfg w (VStr foo) (Ho w)).
    + rewrite (project_entry_absent cfg ps (VStr foo) Hps Habs Hproto). reflexivity.
Qed.

End Properties.

(** ** Properties of ProjectConfig *)

Section ConfigProperties.

Import Config.

Lemma lookup_set_prop_eq :
  forall k v l, lookup k (set_prop k v l) = v.
Proof.
  intros k v l. induction l as [|[k' v'] l IH]; simpl.
  - rewrite String.eqb_refl. reflexivity.
  - destruct (String.eqb k k') eqn:E; simpl.
    + rewrite String.eqb_refl. reflexivity.
    + rewrite E. exact IH.
Qed.

Lemma lookup_set_prop_neq :
  forall k k' v l, String.eqb k' k = false -> lookup k' (set_prop k v l) = lookup k' l.
Proof.
  intros k k' v l Hne. induction l as [|[k0 v0] l IH]; simpl.
  - rewrite Hne. reflexivity.
  - destruct (String.eqb k k0) eqn:E; simpl.
    + apply String.eqb_eq in E. subst k0. rewrite Hne. reflexivity.
    + destruct (String.eqb k' k0); [reflexivity|exact IH].
Qed.

Lemma lookup_delete_prop_eq :
  forall k l, lookup k (delete_prop k l) = VUndefined.
Proof.
  intros k l. induction l as [|[k' v'] l IH]; simpl.
  - reflexivity.
  - destruct (String.eqb k k') eqn:E; simpl.
    + exact IH.
    + rewrite E. exact IH.
Qed.

Lemma lookup_delete_prop_neq :
  forall k k' l, String.eqb k' k = false -> lookup k' (delete_prop k l) = lookup k' l.
Proof.
  intros k k' l Hne. induction l as [|[k0 v0] l IH]; simpl.
  - reflexivity.
  - destruct (String.eqb k k0) eqn:E; simpl.
    + apply String.eqb_eq in E. subst k0. rewrite Hne. exact IH.
    + destruct (String.eqb k' k0); [reflexivity|exact IH].
Qed.

Lemma has_prop_In :
  forall k l, has_prop k l = true <-> In k (keys l).
Proof.
  intros k l. unfold has_prop. rewrite existsb_exists. split.
  - intros [x [Hin Heq]]. apply String.eqb_eq in Heq. subst. exact Hin.
  - intros Hin. exists k. split; [exact Hin|apply String.eqb_refl].
Qed.

Lemma has_set_prop :
  forall k k' v l, has_prop k' (set_prop k v l) = String.eqb k' k || has_prop k' l.
Proof.
  intros k k' v l. unfold has_prop. induction l as [|[k0 v0] l IH]; simpl.
  - reflexivity.
  - destruct (String.eqb k k0) eqn:E; simpl.
    + apply String.eqb_eq in E. subst k0.
      destruct (String.eqb k' k); reflexivity.
    + rewrite IH. destruct (String.eqb k' k0), (String.eqb k' k); reflexivity.
Qed.

Lemma has_delete_prop :
  forall k k' l, has_prop k' (delete_prop k l) = negb (String.eqb k' k) && has_prop k' l.
Proof.
  intros k k' l. unfold has_prop. induction l as [|[k0 v0] l IH]; simpl.
  - destruct (String.eqb k' k); reflexivity.
  - destruct (String.eqb k k0) eqn:E; simpl.
    + apply String.eqb_eq in E. subst k0. rewrite IH.
      destruct (String.eqb k' k); reflexivity.
    + rewrite IH.
      destruct (String.eqb k' k0) eqn:E0, (String.eqb k' k) eqn:E1; try reflexivity.
      apply String.eqb_eq in E0, E1. subst. rewrite String.eqb_refl in E. discriminate.
Qed.

Lemma NoDup_set_prop :
  forall k v l, NoDup (keys l) -> NoDup (keys (set_prop k v l)).
Proof.
  intros k v l. induction l as [|[k0 v0] l IH]; simpl; intros Hnd.
  - constructor; [intros []|constructor].
  - destruct (String.eqb k k0) eqn:E; simpl.
    + apply String.eqb_eq in E. subst k0. exact Hnd.
    + inversion Hnd as [|x xs Hnotin Hnd']; subst. constructor.
      * intros Hin. apply has_prop_In in Hin. rewrite has_set_prop in Hin.
        rewrite String.eqb_sym in E. rewrite E in Hin. simpl in Hin.
        apply has_prop_In in Hin. exact (Hnotin Hin).
      * exact (IH Hnd').
Qed.

Lemma NoDup_delete_prop :
  forall k l, NoDup (keys l) -> NoDup (keys (delete_prop k l)).
Proof.
  intros k l. induction l as [|[k0 v0] l IH]; simpl; intros Hnd.
  - constructor.
  - inversion Hnd as [|x xs Hnotin Hnd']; subst.
    destruct (String.eqb k k0) eqn:E; simpl.
    + exact (IH Hnd').
    + constructor.
      * intros Hin. apply has_prop_In in Hin. rewrite has_delete_prop in Hin.
        apply andb_prop in Hin. destruct Hin as [_ Hin].
        apply has_prop_In in Hin. exact (Hnotin Hin).
      * exact (IH Hnd').
Qed.

Lemma NoDup_assign :
  forall l d, NoDup (keys d) -> NoDup (keys (assign d l)).
Proof.
  unfold assign. induction l as [|[k v] l IH]; simpl; intros d Hd.
  - exact Hd.
  - apply IH. apply NoDup_set_prop. exact Hd.
Qed.

Lemma has_assign :
  forall l d k, has_prop k (assign d l) = has_prop k d || has_prop k l.
Proof.
  unfold assign. induction l as [|[k0 v0] l IH]; simpl; intros d k.
  - rewrite orb_false_r. reflexivity.
  - rewrite IH. rewrite has_set_prop.
    change (has_prop k ((k0, v0) :: l)) with (String.eqb k k0 || has_prop k l).
    destruct (String.eqb k k0), (has_prop k d), (has_prop k l); reflexivity.
Qed.

(** A property of the config wins over the default of the same name. *)
Lemma lookup_assign :
  forall l d k,
    NoDup (keys l) ->
    lookup k (assign d l) = if has_prop k l then lookup k l else lookup k d.
Proof.
  unfold assign. induction l as [|[k0 v0] l IH]; simpl; intros d k Hnd.
  - reflexivity.
  - inversion Hnd as [|x xs Hnotin Hnd']; subst.
    rewrite (IH _ k Hnd').
    change (has_prop k ((k0, v0) :: l)) with (String.eqb k k0 || has_prop k l).
    destruct (String.eqb k k0) eqn:E; simpl.
    + apply String.eqb_eq in E. subst k0.
      destruct (has_prop k l) eqn:Hh.
      * apply has_prop_In in Hh. contradiction.
      * apply lookup_set_prop_eq.
    + destruct (has_prop k l); [reflexivity|].
      apply lookup_set_prop_neq. exact E.
Qed.

Lemma get_in_set_in :
  forall path file new, get_in path (set_in path file new) = new.
Proof.
  induction path as [|k ks IH]; intros file new; simpl.
  - reflexivity.
  - rewrite lookup_set_prop_eq. apply IH.
Qed.

Lemma NoDup_provideDefaults : NoDup (keys provideDefaults).
Proof.
  simpl. constructor.
  - intros [H|[]]. discriminate.
  - constructor; [intros []|constructor].
Qed.

Lemma NoDup_c : forall this file, NoDup (keys (c this file)).
Proof. intros this file. unfold c. apply NoDup_assign. exact NoDup_provideDefaults. Qed.

(** The config read back after a write of the object [l]. *)
Lemma c_after_write :
  forall this file l, c this (set_in (pathPrefix this) file (VObj l)) = assign provideDefaults l.
Proof. intros this file l. unfold c. rewrite get_in_set_in. reflexivity. Qed.

Lemma get_after_set :
  forall this k v file, get this k (set this k v file) = v.
Proof.
  intros this k v file. unfold get, set. rewrite c_after_write.
  rewrite lookup_assign by (apply NoDup_set_prop; apply NoDup_c).
  rewrite has_set_prop. rewrite String.eqb_refl. simpl. apply lookup_set_prop_eq.
Qed.

Lemma has_after_set :
  forall this k v file, has_prop k (c this (set this k v file)) = true.
Proof.
  intros this k v file. unfold set. rewrite c_after_write. rewrite has_assign.
  rewrite has_set_prop. rewrite String.eqb_refl. simpl. apply orb_true_r.
Qed.

Lemma get_after_unset :
  forall this file, get this "app_id" (unset this "app_id" file) = VUndefined.
Proof.
  intros this file. unfold get, unset. rewrite c_after_write.
  rewrite lookup_assign by (apply NoDup_delete_prop; apply NoDup_c).
  rewrite has_delete_prop. rewrite String.eqb_refl. reflexivity.
Qed.

Lemma get_other_after_unset :
  forall this k k' file,
    String.eqb k' k = false ->
    has_prop k' (c this file) = true ->
    get this k' (unset this k file) = get this k' file.
Proof.
  intros this k k' file Hne Hhas. unfold get, unset. rewrite c_after_write.
  rewrite lookup_assign by (apply NoDup_delete_prop; apply NoDup_c).
  rewrite has_delete_prop. rewrite Hne. simpl. rewrite Hhas.
  apply lookup_delete_prop_neq. exact Hne.
Qed.

(** Once [app_id] is gone a load changes nothing. *)
Lemma ProjectConfig_without_app_id :
  forall this file, get this "app_id" file = VUndefined -> ProjectConfig this file = file.
Proof.
  intros this file H. unfold ProjectConfig. unfold get in H. rewrite H. reflexivity.
Qed.

(** C8. When the config a load reads has a non-empty string [app_id] X, the
    file after the load gives [pro_id] X and no [app_id]; and a load of the
    file a load leaves changes nothing, for any file. *)
Theorem C8_app_id_migration :
  forall (this : BaseConfig) (file : value) (x : string),
    get this "app_id" file = VStr x ->
    x <> "" ->
    get this "pro_id" (ProjectConfig this file) = VStr x /\
    get this "app_id" (ProjectConfig this file) = VUndefined /\
    ProjectConfig this (ProjectConfig this file) = ProjectConfig this file /\
    (forall file0 : value,
        ProjectConfig this (ProjectConfig this file0) = ProjectConfig this file0).
Proof.
  intros this file x Happ Hx.
  assert (Hidem : forall file0 : value,
             ProjectConfig this (ProjectConfig this file0) = ProjectConfig this file0).
  { intros file0.
    destruct (is_string (lookup "app_id" (c this file0))) eqn:E.
    - assert (Hl : exists f, ProjectConfig this file0 = unset this "app_id" f).
      { unfold ProjectConfig. rewrite E. eexists. reflexivity. }
      destruct Hl as [f Hf]. rewrite Hf.
      apply ProjectConfig_without_app_id. apply get_after_unset.
    - assert (Hl : ProjectConfig this file0 = file0).
      { unfold ProjectConfig. rewrite E. reflexivity. }
      rewrite Hl. exact Hl. }
  assert (Htruthy : truthy (VStr x) = true).
  { simpl. destruct (String.eqb x "") eqn:E; [|reflexivity].
    apply String.eqb_eq in E. contradiction. }
  assert (Hload : ProjectConfig this file =
                  unset this "app_id" (set this "pro_id" (VStr x) file)).
  { unfold ProjectConfig. unfold get in Happ. rewrite Happ.
    simpl is_string. cbv iota. rewrite Htruthy. reflexivity. }
  split; [|split; [|split]].
  - rewrite Hload. rewrite get_other_after_unset.
    + apply get_after_set.
    + reflexivity.
    + apply has_after_set.
  - rewrite Hload. apply get_after_unset.
  - apply Hidem.
  - exact Hidem.
Qed.

End ConfigProperties.

(** ** The code on the concrete world *)

(** A [root] that is not a string makes the path match throw. *)
Example path_match_throws_on_bad_root :
  getNameFromPathMatch (imports := Demo.imports)
    (Demo.details Demo.no_args "/ws/apps/app2") Demo.cfg_multi_bare (Demo.world_of None [])
  = (inl (TypeError "The path argument must be of type string"), Demo.world_of None []).
Proof. reflexivity. Qed.

(** With [--project] given the path match is not run: the same config
    resolves. *)
Example project_arg_skips_path_match :
  fst (determineMultiApp (imports := Demo.imports)
         (Demo.details (Demo.project_arg "app2") "/ws/apps/app2") Demo.cfg_multi_bare
         (Demo.world_of None []))
  = inr {| multi_config := Demo.cfg_multi_bare; multi_name := Some (VStr "app2");
           multi_type := Some (VStr "angular"); multi_errors := [] |}.
Proof. reflexivity. Qed.

(** Outside every root the default project is selected; it declares no type
    and its type is the detected one. *)
Example default_project_selected :
  fst (determineMultiApp (imports := Demo.imports)
         (Demo.details Demo.no_args "/elsewhere") Demo.cfg_multi
         (Demo.world_of None [ionic1]))
  = inr {| multi_config := Demo.cfg_multi; multi_name := Some (VStr "app1");
           multi_type := Some (VStr "ionic1"); multi_errors := [] |}.
Proof. reflexivity. Qed.

(** An empty [type] string is passed over for detection. *)
Example empty_type_is_detected :
  fst (determineSingleApp (imports := Demo.imports)
         (Demo.details Demo.no_args "/ws") (VObj [("name", VStr "app"); ("type", VStr "")])
         (Demo.world_of None [ionic_angular]))
  = inr {| app_config := VObj [("name", VStr "app"); ("type", VStr "")];
           app_type := Some (VStr "ionic-angular"); app_errors := [] |}.
Proof. reflexivity. Qed.

(** A [type] that is not a string is returned, with its diagnostic. *)
Example boolean_type_is_returned :
  fst (determineSingleApp (imports := Demo.imports)
         (Demo.details Demo.no_args "/ws") Demo.cfg_bool_type
         (Demo.world_of None [angular]))
  = inr {| app_config := Demo.cfg_bool_type; app_type := Some (VBool true);
           app_errors := [mkProjectDetailsError "Invalid project type."
                            ERR_INVALID_PROJECT_TYPE None] |}.
Proof. reflexivity. Qed.

(** A single-app config with no [type] and no marker. *)
Example missing_type :
  codes (errors (match fst (determine (imports := Demo.imports)
                              (Demo.details Demo.no_args "/ws")
                              (Demo.world_of (Some (Some Demo.cfg_untyped)) [])) with
                 | inr r => r
                 | inl _ => mkResult "" unknown None None None []
                 end))
  = [ERR_MISSING_PROJECT_TYPE].
Proof. reflexivity. Qed.

(** An empty [app_id] is removed and no [pro_id] is written. *)
Example empty_app_id_is_dropped :
  Config.ProjectConfig (Config.config_of "/ws/ionic.config.json" (Some "app1"))
    (VObj [("projects", VObj [("app1", VObj [("name", VStr "a"); ("app_id", VStr "")])])])
  = VObj [("projects", VObj [("app1", VObj [("name", VStr "a"); ("integrations", VObj [])])])].
Proof. reflexivity. Qed.

(** The [integrations] of the file have no [constructor]: what
    [integrations['constructor']] finds is inherited, and it is taken for an
    enabled integration at the directory of the project. *)
Example inherited_member_is_an_integration :
  fst (Proj.getIntegration Demo.resolve DemoLog.dirname Demo.inherited
         DemoLog.project "constructor" DemoLog.file_legacy)
  = inr (Some {| Proj.enabled := true; Proj.root := "/ws" |}).
Proof. reflexivity. Qed.

(** ** The properties on the concrete world *)





(** C4 at [--project=constructor], on the config whose projects are [app1]
    and [app2]: [constructor] is not among the projects, and
    [config.projects['constructor']] is the function the mapping inherits from
    [Object.prototype].  The code takes it for the project's config and runs
    type resolution on it: without a marker the result has
    [ERR_MISSING_PROJECT_TYPE], with the marker of ionic1 it has the type
    [ionic1] and no error; [ERR_MULTI_MISSING_CONFIG] is in neither. *)
Theorem C4_inherited_member_is_taken_for_a_project :
  lookup "constructor" Demo.written_multi = VUndefined /\
  get_own Demo.cfg_multi "projects" = VObj Demo.written_multi /\
  determineMultiApp (imports := Demo.imports)
    (Demo.details (Demo.project_arg "constructor") "/ws") Demo.cfg_multi
    (Demo.world_of None []) =
    (inr {| multi_config := Demo.cfg_multi; multi_name := Some (VStr "constructor");
            multi_type := None;
            multi_errors := [mkProjectDetailsError "Could not determine project type."
                               ERR_MISSING_PROJECT_TYPE None] |},
     Demo.world_of None []) /\
  determineMultiApp (imports := Demo.imports)
    (Demo.details (Demo.project_arg "constructor") "/ws") Demo.cfg_multi
    (Demo.world_of None [ionic1]) =
    (inr {| multi_config := Demo.cfg_multi; multi_name := Some (VStr "constructor");
            multi_type := Some (VStr "ionic1"); multi_errors := [] |},
     Demo.world_of None [ionic1]).
Proof. repeat split. Qed.

(** C5 at a project file that is not valid JSON. *)
Lemma C5_witness :
  determine (imports := Demo.imports) (Demo.details Demo.no_args "/ws")
    (Demo.world_of (Some None) [angular]) =
    (inr {| configPath := "/ws/ionic.config.json"; context := unknown; config := None;
            type := None; name := None;
            errors := [mkProjectDetailsError "Could not read project file."
                         ERR_INVALID_PROJECT_FILE
                         (Some (OtherError "SyntaxError" "Unexpected token in JSON"))] |},
     Demo.mkWorld [("/ws/ionic.config.json", None)] [angular] ["/ws/ionic.config.json"]).
Proof.
  apply (proj1 (C5_read_failure_is_unknown (imports := Demo.imports)
                  (Demo.details Demo.no_args "/ws")
                  (Demo.world_of (Some None) [angular]) _ _ eq_refl)).
Defined.

(** C6 at a second call made after the project file was replaced. *)
Lemma C6_witness :
  exists r this',
    result (imports := Demo.imports) (Demo.details Demo.no_args "/ws")
      (Demo.world_of (Some (Some Demo.cfg_typed)) []) =
      (inr (r, this'),
       Demo.mkWorld [("/ws/ionic.config.json", Some Demo.cfg_typed)] []
         ["/ws/ionic.config.json"]) /\
    type r = Some (VStr "ionic1") /\
    result (imports := Demo.imports) this'
      (Demo.world_of (Some (Some Demo.cfg_other_type)) []) =
      (inr (r, this'), Demo.world_of (Some (Some Demo.cfg_other_type)) []).
Proof.
  eexists. eexists. split; [vm_compute; reflexivity|].
  split; [reflexivity|].
  apply (proj2 (proj2 (C6_result_is_memoized (imports := Demo.imports)
                  (Demo.details Demo.no_args "/ws") _
                  (Demo.world_of (Some (Some Demo.cfg_typed)) []) _ _ eq_refl))).
Defined.

(** C7 at the custom variant, which has no build runner. *)
Lemma C7_witness :
  getBuildRunner
    (new_Project (imports := Demo.imports) custom "/ws/ionic.config.json" None)
    (Demo.world_of None []) = (inr None, Demo.world_of None []).
Proof.
  apply (proj1 (proj2 (proj1 (C7_get_runner_catches_only_not_found
                  (new_Project (imports := Demo.imports) custom "/ws/ionic.config.json" None)
                  (Demo.world_of None [])))) "no build runner").
  reflexivity.
Defined.

(** C8 at a top-level config with [app_id: "X"]. *)
Lemma C8_witness :
  Config.get (Config.config_of "/ws/ionic.config.json" None) "pro_id"
    (Config.ProjectConfig (Config.config_of "/ws/ionic.config.json" None)
       (VObj [("name", VStr "app"); ("app_id", VStr "X")])) = VStr "X".
Proof.
  refine (proj1 (C8_app_id_migration (Config.config_of "/ws/ionic.config.json" None)
                   (VObj [("name", VStr "app"); ("app_id", VStr "X")]) "X" eq_refl _)).
  discriminate.
Defined.

(** The projects [web] and [2] are written in this order and both contain
    the working directory [/ws/apps/v2/src]: the code selects [2], which is
    enumerated first, where the first match in the order written is [web].
    And where [bad], written first, has the root [5] and [app2] contains the
    working directory, the code throws where [app2] is the first match. *)
Lemma C9_counterexample :
  ~ path_match_as_worded (imports := Demo.imports)
      (Demo.details Demo.no_args "/ws/apps/v2/src") Demo.written_numbered
      (Demo.world_of None []) /\
  ~ path_match_as_worded (imports := Demo.imports)
      (Demo.details Demo.no_args "/ws/apps/app2/src") Demo.written_bad_root
      (Demo.world_of None []).
Proof.
  split; intros H; vm_compute in H; discriminate H.
Qed.

(** C9 at the projects [web] and [2], where [2] is enumerated first, and at
    [app1] and [app2] from under the root of the second. *)
Lemma C9_witness :
  getNameFromPathMatch (imports := Demo.imports)
    (Demo.details Demo.no_args "/ws/apps/v2/src") Demo.cfg_numbered
    (Demo.world_of None []) = (inr (Some (VStr "2")), Demo.world_of None []) /\
  getNameFromPathMatch (imports := Demo.imports)
    (Demo.details Demo.no_args "/ws/apps/app2/src") Demo.cfg_multi
    (Demo.world_of None []) = (inr (Some (VStr "app2")), Demo.world_of None []).
Proof.
  split.
  - apply (proj1 (C9_path_match_first_wins (imports := Demo.imports)
                    (Demo.details Demo.no_args "/ws/apps/v2/src") Demo.cfg_numbered
                    Demo.written_numbered (Demo.world_of None []) eq_refl)
             [] "2" (VObj [("root", VStr "apps/v2")])
             [("web", VObj [("root", VStr "apps")])] eq_refl).
    + intros kv [].
    + reflexivity.
  - refine (proj2 (proj2 (C9_path_match_first_wins (imports := Demo.imports)
                    (Demo.details Demo.no_args "/ws/apps/app2/src") Demo.cfg_multi
                    Demo.written_multi (Demo.world_of None []) eq_refl))
             _ [("app1", Demo.obj_app1)] "app2" Demo.obj_app2 [] eq_refl _ _).
    + intros kv [Hkv|[Hkv|[]]]; subst kv; reflexivity.
    + intros kv [Hkv|[]]. subst kv. split; reflexivity.
    + reflexivity.
Defined.

(** C10 at a project file holding an array. *)
Lemma C10_witness :
  determine (imports := Demo.imports) (Demo.details Demo.no_args "/ws")
    (Demo.world_of (Some (Some (VArr []))) [angular]) =
    (inr {| configPath := "/ws/ionic.config.json"; context := unknown;
            config := Some (VArr []); type := None; name := None; errors := [] |},
     Demo.mkWorld [("/ws/ionic.config.json", Some (VArr []))] [angular]
       ["/ws/ionic.config.json"]).
Proof.
  apply (C10_unrecognized_shape_has_no_error (imports := Demo.imports)
           (Demo.details Demo.no_args "/ws")
           (Demo.world_of (Some (Some (VArr []))) [angular]) _ (VArr []) eq_refl);
    reflexivity.
Defined.

(** ** Further properties of the module *)

Section MoreProperties.

Context {World BuildRunner ServeRunner GenerateRunner : Type}.
Context {imports : Imports World BuildRunner ServeRunner GenerateRunner}.
Context {log : ILogger World}.



Lemma getNameFromPathMatch_loop_sound :
  forall (this : ProjectDetails) (es : list (string * value)) (w w' : World) (o : option value),
    getNameFromPathMatch_loop this es w = (inr o, w') ->
    w' = w /\
    match o with
    | Some n =>
        exists l1 k v l2,
          es = l1 ++ (k, v) :: l2 /\ n = VStr k /\ contains_cwd this v = true /\
          forall kv, In kv l1 -> contains_cwd this (snd kv) = false
    | None => forall kv, In kv es -> contains_cwd this (snd kv) = false
    end.
Proof.
  intros this es. induction es as [|[k v] rest IH]; intros w w' o H.
  - simpl in H. inversion H; subst. split; [reflexivity|]. intros kv [].
  - simpl in H.
    assert (Hskip : contains_cwd this v = false ->
                    getNameFromPathMatch_loop this rest w = (inr o, w') ->
                    w' = w /\
                    match o with
                    | Some n =>
                        exists l1 k0 v0 l2,
                          (k, v) :: rest = l1 ++ (k0, v0) :: l2 /\ n = VStr k0 /\
                          contains_cwd this v0 = true /\
                          forall kv, In kv l1 -> contains_cwd this (snd kv) = false
                    | None => forall kv, In kv ((k, v) :: rest) ->
                                         contains_cwd this (snd kv) = false
                    end).
    { intros Hno Hrest. destruct (IH _ _ _ Hrest) as [Hw Ho]. split; [exact Hw|].
      destruct o as [n|].
      - destruct Ho as [l1 [k0 [v0 [l2 [Hes [Hn [Hc Hl1]]]]]]].
        exists ((k, v) :: l1), k0, v0, l2. split; [rewrite Hes; reflexivity|].
        split; [exact Hn|]. split; [exact Hc|].
        intros kv [Hkv|Hin]; [subst kv; exact Hno|exact (Hl1 kv Hin)].
      - intros kv [Hkv|Hin]; [subst kv; exact Hno|exact (Ho kv Hin)]. }
    unfold contains_cwd, project_dir in *.
    destruct (truthy v) eqn:Hv; simpl in H; [|apply Hskip; [|exact H]].
    + destruct (get_own v "root") as [| |b|z|r|l|l|f] eqn:Hr; simpl in H;
        try (apply Hskip; [reflexivity|exact H]).
      * destruct b; simpl in H; [unfold bind, throw in H; discriminate|].
        apply Hskip; [reflexivity|exact H].
      * destruct (negb (Z.eqb z 0)); simpl in H; [unfold bind, throw in H; discriminate|].
        apply Hskip; [reflexivity|exact H].
      * destruct (String.eqb r "") eqn:He; simpl in H.
        -- apply Hskip; [reflexivity|exact H].
        -- unfold bind, ret in H. simpl in H.
           destruct (String.prefix (path_resolve (rootDirectory this) r) (execPath this))
             eqn:Hp.
           ++ inversion H; subst. split; [reflexivity|].
              exists [], k, v, rest. split; [reflexivity|]. split; [reflexivity|].
              split.
              ** rewrite Hr, Hv, He. simpl. exact Hp.
              ** intros kv [].
           ++ apply Hskip; [simpl; exact Hp|exact H].
      * unfold bind, throw in H. discriminate.
      * unfold bind, throw in H. discriminate.
      * unfold bind, throw in H. discriminate.
    + destruct (get_own v "root"); reflexivity.
Qed.

(** X3. What the path-containment step returns is the key of a configured
    project whose resolved root directory the working directory starts with,
    and no project before it in the mapping has such a root; when it returns
    nothing, no configured project has one.  It leaves the world as it was. *)
Theorem getNameFromPathMatch_sound :
  forall (this : ProjectDetails) (cfg : value) (w w' : World) (o : option value),
    getNameFromPathMatch this cfg w = (inr o, w') ->
    w' = w /\
    match o with
    | Some n =>
        exists l1 k v l2,
          entries (get_own cfg "projects") = l1 ++ (k, v) :: l2 /\
          n = VStr k /\ contains_cwd this v = true /\
          forall kv, In kv l1 -> contains_cwd this (snd kv) = false
    | None =>
        forall kv, In kv (entries (get_own cfg "projects")) ->
                   contains_cwd this (snd kv) = false
    end.
Proof.
  intros this cfg w w' o H. unfold getNameFromPathMatch, bind in H.
  destruct cfg; simpl in H; try (unfold throw in H; discriminate);
    match goal with
    | |- context [entries (get_own ?c "projects")] =>
        exact (getNameFromPathMatch_loop_sound this (entries (get_own c "projects"))
                 w w' o H)
    end.
Qed.

(** X4. The display name of a project type is never empty: a missing or empty
    type is shown as [Unknown], a type without a name of its own as itself. *)
Theorem prettyProjectName_nonempty :
  forall t : option string, prettyProjectName t <> "".
Proof.
  intros [t|]; simpl; [|discriminate].
  destruct (String.eqb t "") eqn:E0; [discriminate|].
  destruct (String.eqb t "angular"); [discriminate|].
  destruct (String.eqb t "ionic-angular"); [discriminate|].
  destruct (String.eqb t "ionic1"); [discriminate|].
  intros H. subst t. discriminate.
Qed.

(** X5. The types that have a display name of their own are exactly the ones
    whose tooling is known, and the four supported types have four different
    display names. *)
Theorem pretty_names_and_tooling_agree :
  (forall t : string, t <> "" ->
     (prettyProjectTooling (Some t) = "unknown tooling" <-> prettyProjectName (Some t) = t)) /\
  (forall a b : ProjectType,
     prettyProjectName (Some (type_name a)) = prettyProjectName (Some (type_name b)) ->
     a = b).
Proof.
  split.
  - intros t Ht. unfold prettyProjectTooling, prettyProjectName.
    destruct (String.eqb t "") eqn:E0; [apply String.eqb_eq in E0; contradiction|].
    destruct (String.eqb t "angular") eqn:E1;
      [apply String.eqb_eq in E1; subst; split; discriminate|].
    destruct (String.eqb t "ionic-angular") eqn:E2;
      [apply String.eqb_eq in E2; subst; split; discriminate|].
    destruct (String.eqb t "ionic1") eqn:E3;
      [apply String.eqb_eq in E3; subst; split; discriminate|].
    split; reflexivity.
  - intros a b. destruct a, b; simpl; intros H; try reflexivity; discriminate.
Qed.

(** *** What resolution never does *)

Lemma quiet_ret : forall (A : Type) (a : A), quiet (World := World) (ret a).
Proof. intros A a w. split; [reflexivity|]. intros e H. discriminate. Qed.

Lemma quiet_throw :
  forall (A : Type) (msg : string), quiet (World := World) (A := A) (throw (TypeError msg)).
Proof.
  intros A msg w. split; [reflexivity|]. intros e H. inversion H. eexists; reflexivity.
Qed.

Lemma quiet_bind :
  forall (A B : Type) (c : M World A) (k : A -> M World B),
    quiet c -> (forall a, quiet (k a)) -> quiet (bind c k).
Proof.
  intros A B c k Hc Hk w. unfold bind. destruct (Hc w) as [Hw He].
  destruct (c w) as [[e|a] w1]; simpl in *; subst w1.
  - split; [reflexivity|]. intros e0 H. inversion H; subst. apply He. reflexivity.
  - apply Hk.
Qed.

Lemma quiet_get_member :
  forall (v : value) (k : string), quiet (World := World) (get_member v k).
Proof.
  intros v k. destruct v; simpl; try apply quiet_ret; apply quiet_throw.
Qed.

Lemma quiet_get_computed_member :
  forall (v : value) (k : string),
    quiet (World := World) (get_computed_member prototype_member v k).
Proof.
  intros v k. destruct v; simpl; try apply quiet_ret; apply quiet_throw.
Qed.

Lemma quiet_getNameFromArgs : forall this : ProjectDetails, quiet (World := World) (getNameFromArgs this).
Proof.
  intros this. unfold getNameFromArgs.
  destruct (truthy _); apply quiet_ret.
Qed.

Lemma quiet_getNameFromPathMatch_loop :
  forall (this : ProjectDetails) (es : list (string * value)),
    quiet (getNameFromPathMatch_loop this es).
Proof.
  intros this es. induction es as [|[k v] rest IH]; simpl.
  - apply quiet_ret.
  - destruct (truthy v && truthy (get_own v "root")); [|exact IH].
    apply quiet_bind.
    + unfold resolve_value. destruct (get_own v "root"); try apply quiet_throw.
      apply quiet_ret.
    + intros d. destruct (String.prefix d (execPath this)); [apply quiet_ret|exact IH].
Qed.

Lemma quiet_getNameFromPathMatch :
  forall (this : ProjectDetails) (cfg : value), quiet (getNameFromPathMatch this cfg).
Proof.
  intros this cfg. unfold getNameFromPathMatch. apply quiet_bind.
  - apply quiet_get_member.
  - intros pv. apply quiet_getNameFromPathMatch_loop.
Qed.

Lemma quiet_getNameFromDefaultProject :
  forall (this : ProjectDetails) (cfg : value),
    quiet (World := World) (getNameFromDefaultProject this cfg).
Proof.
  intros this cfg. unfold getNameFromDefaultProject. apply quiet_bind.
  - apply quiet_get_member.
  - intros n. destruct (truthy n); apply quiet_ret.
Qed.

Lemma quiet_resolveValue :
  forall fns : list (M World (option value)),
    (forall fn, In fn fns -> quiet fn) -> quiet (resolveValue fns).
Proof.
  induction fns as [|fn rest IH]; intros H; simpl.
  - apply quiet_ret.
  - apply quiet_bind.
    + apply H. left. reflexivity.
    + intros r. destruct (truthy (to_value r)); [apply quiet_ret|].
      apply IH. intros fn0 Hin. apply H. right. exact Hin.
Qed.

Lemma quiet_getTypeFromDetection :
  forall this : ProjectDetails, quiet (getTypeFromDetection this).
Proof.
  intros this w. unfold getTypeFromDetection. rewrite getTypeFromDetection_loop_find.
  split; [reflexivity|]. intros e H. discriminate.
Qed.

Lemma quiet_determineSingleApp :
  forall (this : ProjectDetails) (cfg : value), quiet (determineSingleApp this cfg).
Proof.
  intros this cfg. unfold determineSingleApp. apply quiet_bind.
  - apply quiet_resolveValue. intros fn [H|[H|[]]]; subst fn.
    + unfold getTypeFromConfig. apply quiet_bind; [apply quiet_get_member|].
      intros t. destruct (truthy t); apply quiet_ret.
    + apply quiet_getTypeFromDetection.
  - intros t. apply quiet_ret.
Qed.

Lemma quiet_determineMultiApp :
  forall (this : ProjectDetails) (cfg : value), quiet (determineMultiApp this cfg).
Proof.
  intros this cfg. unfold determineMultiApp. apply quiet_bind.
  - apply quiet_resolveValue. intros fn [H|[H|[H|[]]]]; subst fn.
    + apply quiet_getNameFromArgs.
    + apply quiet_getNameFromPathMatch.
    + apply quiet_getNameFromDefaultProject.
  - intros o. destruct (truthy (to_value o)); [|apply quiet_ret].
    apply quiet_bind; [apply quiet_get_member|]. intros pv.
    apply quiet_bind; [apply quiet_get_computed_member|]. intros a.
    destruct (truthy a); [|apply quiet_ret].
    apply quiet_bind; [apply quiet_determineSingleApp|]. intros r. apply quiet_ret.
Qed.

(** Whatever the project file holds, [determine] leaves the world exactly
    as its one read of the project file left it: resolution reads that file
    once and does nothing else to the world, also when it throws. *)
Lemma determine_only_effect_is_the_read :
  forall (this : ProjectDetails) (w : World),
    snd (determine this w) = snd (readJsonFile (config_file this) w).
Proof.
  intros this w. unfold determine, config_file.
  unfold bind at 1. unfold try_catch. unfold bind at 1.
  destruct (readJsonFile (path_resolve (rootDirectory this) PROJECT_FILE) w)
    as [[e|c0] w1]; cbn [ret fst snd to_value].
  - reflexivity.
  - destruct (truthy c0); [|reflexivity].
    destruct (isProjectConfig c0).
    + unfold bind. pose proof (quiet_determineSingleApp this c0 w1) as [Hw _].
      destruct (determineSingleApp this c0 w1) as [[e|r] w2]; simpl in *; exact Hw.
    + destruct (isMultiProjectConfig c0); [|reflexivity].
      unfold bind. pose proof (quiet_determineMultiApp this c0 w1) as [Hw _].
      destruct (determineMultiApp this c0 w1) as [[e|r] w2]; simpl in *; exact Hw.
Qed.

Lemma determine_inl_TypeError :
  forall (this : ProjectDetails) (w w' : World) (e : exception),
    determine this w = (inl e, w') -> exists msg, e = TypeError msg.
Proof.
  intros this w w' e H. unfold determine in *.
  unfold bind at 1 in H. unfold try_catch in H. unfold bind at 1 in H.
  destruct (readJsonFile (path_resolve (rootDirectory this) PROJECT_FILE) w)
    as [[e0|c0] w1]; cbn [ret fst snd to_value] in H.
  - inversion H.
  - destruct (truthy c0) eqn:Hc; [|inversion H].
    destruct (isProjectConfig c0) eqn:Hs.
    + unfold bind in H.
      rewrite (determineSingleApp_outcome this c0 w1 Hc) in H. inversion H.
    + destruct (isMultiProjectConfig c0) eqn:Hm; [|inversion H].
      unfold bind in H. pose proof (quiet_determineMultiApp this c0 w1) as [Hw He].
      destruct (determineMultiApp this c0 w1) as [[e1|r] w2]; simpl in *; [|inversion H].
      inversion H; subst. apply He. reflexivity.
Qed.


(** *** The shape of the results *)

Lemma determineSingleApp_cases :
  forall (this : ProjectDetails) (cfg : value) (w w' : World)
         (r : ProjectDetailsSingleAppResult),
    truthy cfg = true ->
    determineSingleApp this cfg w = (inr r, w') ->
    w' = w /\ app_config r = cfg /\
    ((app_type r = None /\
      app_errors r = [mkProjectDetailsError "Could not determine project type."
                        ERR_MISSING_PROJECT_TYPE None]) \/
     (exists t, app_type r = Some t /\ truthy t = true /\
                includes PROJECT_TYPES t = true /\ app_errors r = []) \/
     (exists t, app_type r = Some t /\ truthy t = true /\
                includes PROJECT_TYPES t = false /\
                app_errors r = [mkProjectDetailsError "Invalid project type."
                                  ERR_INVALID_PROJECT_TYPE None])).
Proof.
  intros this cfg w w' r Hc Hr.
  destruct (determineSingleApp_errors this cfg w w' r Hc Hr) as [_ [Htr _]].
  rewrite (determineSingleApp_outcome this cfg w Hc) in Hr.
  inversion Hr; subst; clear Hr. cbn [app_type app_errors app_config] in *.
  split; [reflexivity|]. split; [reflexivity|].
  destruct (if truthy (get_own cfg "type") then Some (get_own cfg "type")
            else option_map type_value
                   (find (fun t => marker_present this t w') PROJECT_TYPES)) as [t|].
  - right. cbn [to_value]. pose proof (Htr t eq_refl) as Ht. rewrite Ht. cbn [negb].
    destruct (includes PROJECT_TYPES t) eqn:Hin.
    + left. exists t. split; [reflexivity|]. split; [exact Ht|].
      split; [exact Hin|reflexivity].
    + right. exists t. split; [reflexivity|]. split; [exact Ht|].
      split; [exact Hin|reflexivity].
  - left. split; reflexivity.
Qed.

Lemma get_member_inr :
  forall (v : value) (k : string) (w w' : World) (a : value),
    get_member v k w = (inr a, w') -> a = get_own v k /\ w' = w.
Proof.
  intros v k w w' a H. destruct v; simpl in H; unfold throw, ret in H;
    inversion H; split; reflexivity.
Qed.

Lemma get_computed_member_inr :
  forall (v : value) (k : string) (w w' : World) (a : value),
    get_computed_member prototype_member v k w = (inr a, w') ->
    a = get_property prototype_member v k /\ w' = w.
Proof.
  intros v k w w' a H. destruct v; simpl in H; unfold throw, ret in H;
    inversion H; split; reflexivity.
Qed.

Lemma determineMultiApp_cases :
  forall (this : ProjectDetails) (cfg : value) (w w' : World)
         (r : ProjectDetailsMultiAppResult),
    determineMultiApp this cfg w = (inr r, w') ->
    w' = w /\ multi_config r = cfg /\
    ((truthy (to_value (multi_name r)) = false /\ multi_type r = None /\
      multi_errors r = [mkProjectDetailsError "Could not determine project name."
                          ERR_MULTI_MISSING_NAME None]) \/
     (truthy (to_value (multi_name r)) = true /\
      truthy (project_entry cfg (to_value (multi_name r))) = false /\
      multi_type r = None /\
      multi_errors r = [mkProjectDetailsError "Could not find project in config."
                          ERR_MULTI_MISSING_CONFIG None]) \/
     (truthy (to_value (multi_name r)) = true /\
      truthy (project_entry cfg (to_value (multi_name r))) = true /\
      exists rs,
        determineSingleApp this (project_entry cfg (to_value (multi_name r))) w
        = (inr rs, w) /\
        multi_type r = app_type rs /\ multi_errors r = app_errors rs)).
Proof.
  intros this cfg w w' r H.
  pose proof (quiet_determineMultiApp this cfg w) as [Hw _]. rewrite H in Hw.
  simpl in Hw. subst w'. split; [reflexivity|].
  unfold determineMultiApp in H. unfold bind at 1 in H.
  pose proof (quiet_resolveValue
                [getNameFromArgs this; getNameFromPathMatch this cfg;
                 getNameFromDefaultProject this cfg]) as Hq.
  assert (Hsteps : forall fn,
             In fn [getNameFromArgs this; getNameFromPathMatch this cfg;
                    getNameFromDefaultProject this cfg] -> quiet fn).
  { intros fn [Hf|[Hf|[Hf|[]]]]; subst fn.
    - apply quiet_getNameFromArgs.
    - apply quiet_getNameFromPathMatch.
    - apply quiet_getNameFromDefaultProject. }
  destruct (Hq Hsteps w) as [Hw1 _].
  destruct (resolveValue _ w) as [[e|o] w1]; [discriminate|]. simpl in Hw1. subst w1.
  destruct (truthy (to_value o)) eqn:Ho.
  - unfold bind at 1 in H.
    destruct (get_member cfg "projects" w) as [[e|pv] w2] eqn:Hg1; [discriminate|].
    apply get_member_inr in Hg1. destruct Hg1 as [Hpv Hw2]. subst pv w2.
    unfold bind at 1 in H.
    destruct (get_computed_member prototype_member (get_own cfg "projects")
                (js_String (to_value o)) w)
      as [[e|a] w3] eqn:Hg2; [discriminate|].
    apply get_computed_member_inr in Hg2. destruct Hg2 as [Ha Hw3]. subst a w3.
    fold (project_entry cfg (to_value o)) in H.
    destruct (truthy (project_entry cfg (to_value o))) eqn:Happ.
    + pose proof (determineSingleApp_outcome this _ w Happ) as Hout. simpl in Hout.
      unfold bind at 1 in H. rewrite Hout in H.
      inversion H; subst; clear H.
      cbn [multi_name multi_type multi_errors multi_config].
      split; [reflexivity|]. right. right.
      split; [exact Ho|]. split; [exact Happ|].
      eexists. split; [exact Hout|]. split; reflexivity.
    + inversion H; subst; clear H.
      cbn [multi_name multi_type multi_errors multi_config].
      split; [reflexivity|]. right. left.
      split; [exact Ho|]. split; [exact Happ|]. split; reflexivity.
  - inversion H; subst; clear H. cbn [multi_name multi_type multi_errors multi_config].
    split; [reflexivity|]. left. split; [exact Ho|]. split; reflexivity.
Qed.

Lemma determine_cases :
  forall (this : ProjectDetails) (w w' : World) (r : ProjectDetailsResult),
    determine this w = (inr r, w') ->
    (exists e,
        readJsonFile (config_file this) w = (inl e, w') /\
        r = mkResult (config_file this) unknown None None None
              [mkProjectDetailsError "Could not read project file."
                 ERR_INVALID_PROJECT_FILE (Some e)]) \/
    (exists c,
        readJsonFile (config_file this) w = (inr c, w') /\
        (truthy c = false \/ (isProjectConfig c = false /\ isMultiProjectConfig c = false)) /\
        r = mkResult (config_file this) unknown (Some c) None None []) \/
    (exists c rs,
        readJsonFile (config_file this) w = (inr c, w') /\
        truthy c = true /\ isProjectConfig c = true /\
        determineSingleApp this c w' = (inr rs, w') /\
        r = mkResult (config_file this) app (Some (app_config rs)) (app_type rs) None
              (app_errors rs)) \/
    (exists c rm,
        readJsonFile (config_file this) w = (inr c, w') /\
        truthy c = true /\ isProjectConfig c = false /\ isMultiProjectConfig c = true /\
        determineMultiApp this c w' = (inr rm, w') /\
        r = mkResult (config_file this) multiapp (Some (multi_config rm)) (multi_type rm)
              (multi_name rm) (multi_errors rm)).
Proof.
  intros this w w' r H. unfold determine, config_file in *.
  unfold bind at 1 in H. unfold try_catch in H. unfold bind at 1 in H.
  destruct (readJsonFile (path_resolve (rootDirectory this) PROJECT_FILE) w)
    as [[e|c0] w1]; cbn [ret fst snd to_value] in H.
  - inversion H; subst. left. exists e. split; reflexivity.
  - destruct (truthy c0) eqn:Hc.
    + destruct (isProjectConfig c0) eqn:Hs.
      * unfold bind in H.
        pose proof (quiet_determineSingleApp this c0 w1) as [Hw _].
        destruct (determineSingleApp this c0 w1) as [[e|rs] w2] eqn:Hd; [inversion H|].
        simpl in Hw. subst w2. inversion H; subst.
        right. right. left. exists c0, rs. repeat split; assumption.
      * destruct (isMultiProjectConfig c0) eqn:Hm.
        -- unfold bind in H.
           pose proof (quiet_determineMultiApp this c0 w1) as [Hw _].
           destruct (determineMultiApp this c0 w1) as [[e|rm] w2] eqn:Hd; [inversion H|].
           simpl in Hw. subst w2. inversion H; subst.
           right. right. right. exists c0, rm. repeat split; assumption.
        -- inversion H; subst. right. left. exists c0.
           split; [reflexivity|]. split; [right; split; assumption|reflexivity].
    + inversion H; subst. right. left. exists c0.
      split; [reflexivity|]. split; [left; exact Hc|reflexivity].
Qed.

Lemma includes_false :
  forall (types : list ProjectType) (v : value),
    includes types v = false -> forall pt, In pt types -> v <> type_value pt.
Proof.
  intros types v H pt Hin Hv. subst v.
  assert (includes types (type_value pt) = true).
  { unfold includes. apply existsb_exists. exists pt. split; [exact Hin|].
    simpl. apply String.eqb_refl. }
  congruence.
Qed.

(** The type and the errors of type resolution, for the results that carry
    them. *)
Lemma single_type_and_errors :
  forall (this : ProjectDetails) (cfg : value) (w w' : World)
         (rs : ProjectDetailsSingleAppResult),
    truthy cfg = true ->
    determineSingleApp this cfg w = (inr rs, w') ->
    (List.length (app_errors rs) <= 1)%nat /\
    (forall c, In c (codes (app_errors rs)) ->
               c = ERR_MISSING_PROJECT_TYPE \/ c = ERR_INVALID_PROJECT_TYPE) /\
    (app_type rs = None -> codes (app_errors rs) = [ERR_MISSING_PROJECT_TYPE]) /\
    (forall t, app_type rs = Some t ->
       truthy t = true /\
       ((app_errors rs = [] /\ exists pt, In pt PROJECT_TYPES /\ t = type_value pt) \/
        (codes (app_errors rs) = [ERR_INVALID_PROJECT_TYPE] /\
         forall pt, In pt PROJECT_TYPES -> t <> type_value pt))).
Proof.
  intros this cfg w w' rs Hc Hr.
  destruct (determineSingleApp_cases this cfg w w' rs Hc Hr)
    as [_ [_ [[Ht He]|[[t [Ht [Htr [Hin He]]]]|[t [Ht [Htr [Hin He]]]]]]]];
    rewrite He, Ht; simpl.
  - split; [auto|]. split; [intros c [Hc0|[]]; left; auto|].
    split; [reflexivity|]. intros t H. discriminate.
  - split; [auto|]. split; [intros c []|].
    split; [discriminate|]. intros t0 H. inversion H; subst.
    split; [exact Htr|]. left. split; [reflexivity|]. apply includes_enum. exact Hin.
  - split; [auto|]. split; [intros c [Hc0|[]]; right; auto|].
    split; [discriminate|]. intros t0 H. inversion H; subst.
    split; [exact Htr|]. right. split; [reflexivity|]. apply includes_false. exact Hin.
Qed.

(** X7. A result of [determine] carries at most one diagnostic: the five error
    codes never occur together. *)
Theorem determine_at_most_one_error :
  forall (this : ProjectDetails) (w w' : World) (r : ProjectDetailsResult),
    determine this w = (inr r, w') ->
    (List.length (errors r) <= 1)%nat.
Proof.
  intros this w w' r H.
  destruct (determine_cases this w w' r H)
    as [[e [_ Hr]]|[[c [_ [_ Hr]]]|[[c [rs [_ [Hc [_ [Hd Hr]]]]]]|[c [rm [_ [Hc [_ [_ [Hd Hr]]]]]]]]]];
    subst r; cbn [errors].
  - simpl. auto.
  - simpl. auto.
  - apply (single_type_and_errors this c w' w' rs Hc Hd).
  - destruct (determineMultiApp_cases this c w' w' rm Hd)
      as [_ [_ [[_ [_ He]]|[[_ [_ [_ He]]]|[_ [Happ [rs [Hs [_ He]]]]]]]]];
      rewrite He.
    + simpl. auto.
    + simpl. auto.
    + apply (single_type_and_errors this _ w' w' rs Happ Hs).
Qed.

(** X8. In a result of [determine]: the config is missing exactly when the
    read failed, and then the context is ['unknown'] and the error is
    [ERR_INVALID_PROJECT_FILE], which no other result carries; an ['unknown']
    result has no type and no name; an ['app'] result has no name and only the
    two type errors; the two [ERR_MULTI_] errors occur in ['multiapp'] results
    only. *)
Theorem determine_diagnostics_by_context :
  forall (this : ProjectDetails) (w w' : World) (r : ProjectDetailsResult),
    determine this w = (inr r, w') ->
    configPath r = config_file this /\
    (config r = None <-> exists e, readJsonFile (config_file this) w = (inl e, w')) /\
    (In ERR_INVALID_PROJECT_FILE (codes (errors r)) <-> config r = None) /\
    (config r = None -> context r = unknown) /\
    (context r = unknown -> type r = None /\ name r = None) /\
    (context r = app ->
       name r = None /\
       forall c, In c (codes (errors r)) ->
                 c = ERR_MISSING_PROJECT_TYPE \/ c = ERR_INVALID_PROJECT_TYPE) /\
    (forall c, In c (codes (errors r)) ->
               c = ERR_MULTI_MISSING_NAME \/ c = ERR_MULTI_MISSING_CONFIG ->
               context r = multiapp).
Proof.
  intros this w w' r H.
  destruct (determine_cases this w w' r H)
    as [[e [Hread Hr]]|[[c [Hread [_ Hr]]]|[[c [rs [Hread [Hc [_ [Hd Hr]]]]]]
       |[c [rm [Hread [Hc [_ [_ [Hd Hr]]]]]]]]]];
    subst r; cbn [configPath config errors context type name].
  - split; [reflexivity|]. split; [split; [intros _; exists e; exact Hread|reflexivity]|].
    split; [split; [reflexivity|intros _; simpl; left; reflexivity]|].
    split; [reflexivity|]. split; [intros _; split; reflexivity|].
    split; [discriminate|].
    intros c0 [Hc0|[]] [Hn|Hn]; subst c0; discriminate.
  - split; [reflexivity|].
    split; [split; [discriminate|intros [e He]; rewrite Hread in He; discriminate]|].
    split; [split; [intros []|discriminate]|].
    split; [discriminate|]. split; [intros _; split; reflexivity|].
    split; [discriminate|]. intros c0 [].
  - destruct (single_type_and_errors this c w' w' rs Hc Hd) as [_ [Hcodes _]].
    split; [reflexivity|].
    split; [split; [discriminate|intros [e He]; rewrite Hread in He; discriminate]|].
    split; [split; [|discriminate]|].
    { intros Hin. destruct (Hcodes _ Hin); discriminate. }
    split; [discriminate|]. split; [discriminate|].
    split; [intros _; split; [reflexivity|exact Hcodes]|].
    intros c0 Hin [Hn|Hn]; subst c0; destruct (Hcodes _ Hin); discriminate.
  - split; [reflexivity|].
    split; [split; [discriminate|intros [e He]; rewrite Hread in He; discriminate]|].
    split; [split; [|discriminate]|].
    { intros Hin.
      destruct (determineMultiApp_cases this c w' w' rm Hd)
        as [_ [_ [[_ [_ He]]|[[_ [_ [_ He]]]|[_ [Happ [rs [Hs [_ He]]]]]]]]];
        rewrite He in Hin.
      - destruct Hin as [Hin|[]]; discriminate.
      - destruct Hin as [Hin|[]]; discriminate.
      - destruct (single_type_and_errors this _ w' w' rs Happ Hs) as [_ [Hcodes _]].
        destruct (Hcodes _ Hin); discriminate. }
    split; [discriminate|]. split; [discriminate|].
    split; [discriminate|]. intros c0 _ _. reflexivity.
Qed.

(** X9. In a result of [determine], a type is always truthy and comes either
    with no error at all, and then it is a member of [PROJECT_TYPES], or with
    [ERR_INVALID_PROJECT_TYPE] alone, and then it is not; and an ['app'] or
    ['multiapp'] result without a type carries exactly one of
    [ERR_MISSING_PROJECT_TYPE], [ERR_MULTI_MISSING_NAME] and
    [ERR_MULTI_MISSING_CONFIG].  So such a result is free of errors exactly
    when its type is a supported one. *)
Theorem determine_type_and_errors :
  forall (this : ProjectDetails) (w w' : World) (r : ProjectDetailsResult),
    determine this w = (inr r, w') ->
    (forall t, type r = Some t ->
       truthy t = true /\
       ((errors r = [] /\ exists pt, In pt PROJECT_TYPES /\ t = type_value pt) \/
        (codes (errors r) = [ERR_INVALID_PROJECT_TYPE] /\
         forall pt, In pt PROJECT_TYPES -> t <> type_value pt))) /\
    (type r = None -> context r <> unknown ->
       exists c, codes (errors r) = [c] /\
                 (c = ERR_MISSING_PROJECT_TYPE \/ c = ERR_MULTI_MISSING_NAME \/
                  c = ERR_MULTI_MISSING_CONFIG)).
Proof.
  intros this w w' r H.
  destruct (determine_cases this w w' r H)
    as [[e [_ Hr]]|[[c [_ [_ Hr]]]|[[c [rs [_ [Hc [_ [Hd Hr]]]]]]|[c [rm [_ [Hc [_ [_ [Hd Hr]]]]]]]]]];
    subst r; cbn [errors type context].
  - split; [discriminate|]. intros _ Hn. contradiction.
  - split; [discriminate|]. intros _ Hn. contradiction.
  - destruct (single_type_and_errors this c w' w' rs Hc Hd) as [_ [_ [Hnone Hsome]]].
    split; [exact Hsome|]. intros Hn _. rewrite (Hnone Hn). eexists. split; [reflexivity|].
    left. reflexivity.
  - destruct (determineMultiApp_cases this c w' w' rm Hd)
      as [_ [_ [[_ [Ht He]]|[[_ [_ [Ht He]]]|[_ [Happ [rs [Hs [Ht He]]]]]]]]];
      rewrite Ht, He.
    + split; [discriminate|]. intros _ _. eexists. split; [reflexivity|]. auto.
    + split; [discriminate|]. intros _ _. eexists. split; [reflexivity|]. auto.
    + destruct (single_type_and_errors this _ w' w' rs Happ Hs) as [_ [_ [Hnone Hsome]]].
      split; [exact Hsome|]. intros Hn _. rewrite (Hnone Hn).
      eexists. split; [reflexivity|]. left. reflexivity.
Qed.

(** X10. A project file that reads as an object accepted by the single-app
    guard, whose [type] is a member of [PROJECT_TYPES], resolves to context
    ['app'] with that type and no error, without any detection. *)
Theorem determine_explicit_supported_type :
  forall (this : ProjectDetails) (w w1 : World) (l : list (string * value))
         (pt : ProjectType),
    readJsonFile (config_file this) w = (inr (VObj l), w1) ->
    isProjectConfig (VObj l) = true ->
    lookup "type" l = type_value pt ->
    In pt PROJECT_TYPES ->
    determine this w =
      (inr (mkResult (config_file this) app (Some (VObj l)) (Some (type_value pt)) None []),
       w1).
Proof.
  intros this w w1 l pt Hread Hs Ht Hin.
  unfold determine, config_file in *.
  unfold bind at 1. unfold try_catch. unfold bind at 1. rewrite Hread.
  cbn [ret fst snd to_value truthy]. rewrite Hs.
  unfold bind. rewrite (determineSingleApp_outcome this (VObj l) w1 eq_refl).
  cbn [get_own]. rewrite Ht. rewrite type_value_truthy.
  cbn [to_value app_config app_type app_errors]. rewrite type_value_truthy.
  assert (Hinc : includes PROJECT_TYPES (type_value pt) = true).
  { unfold includes. apply existsb_exists. exists pt. split; [exact Hin|].
    simpl. apply String.eqb_refl. }
  rewrite Hinc. reflexivity.
Qed.

(** X11. In a result of [determineMultiApp]: [ERR_MULTI_MISSING_NAME] is there
    exactly when no name was resolved, [ERR_MULTI_MISSING_CONFIG] exactly when
    a name was resolved for which [config.projects[name]] tests false, and a
    type is resolved only for a name for which it tests true.  What
    [config.projects[name]] finds is an entry of the mapping or, for a name
    like [constructor], a member the mapping inherits from its prototype. *)
Theorem determineMultiApp_errors_characterised :
  forall (this : ProjectDetails) (cfg : value) (w w' : World)
         (r : ProjectDetailsMultiAppResult),
    determineMultiApp this cfg w = (inr r, w') ->
    let selected :=
      get_property prototype_member (get_own cfg "projects")
        (js_String (to_value (multi_name r))) in
    (In ERR_MULTI_MISSING_NAME (codes (multi_errors r)) <->
     truthy (to_value (multi_name r)) = false) /\
    (In ERR_MULTI_MISSING_CONFIG (codes (multi_errors r)) <->
     truthy (to_value (multi_name r)) = true /\ truthy selected = false) /\
    (forall t, multi_type r = Some t ->
       truthy (to_value (multi_name r)) = true /\ truthy selected = true).
Proof.
  intros this cfg w w' r H selected. subst selected.
  fold (project_entry cfg (to_value (multi_name r))).
  destruct (determineMultiApp_cases this cfg w w' r H)
    as [Hw [_ [[Hn [Ht He]]|[[Hn [Happ [Ht He]]]|[Hn [Happ [rs [Hs [Ht He]]]]]]]]];
    subst w'.
  - rewrite He, Ht, Hn. simpl. split; [split; auto|].
    split; [|discriminate].
    split; [intros [Hc|[]]; discriminate|intros [Hc _]; discriminate].
  - rewrite He, Ht, Hn, Happ. simpl. split.
    + split; [intros [Hc|[]]; discriminate|discriminate].
    + split; [split; auto|discriminate].
  - rewrite He, Ht, Hn, Happ.
    destruct (single_type_and_errors this _ w w rs Happ Hs) as [_ [Hcodes _]].
    split; [|split].
    + split; [|discriminate]. intros Hin. destruct (Hcodes _ Hin); discriminate.
    + split; [|intros [_ Hc]; discriminate].
      intros Hin. destruct (Hcodes _ Hin); discriminate.
    + intros t _. split; reflexivity.
Qed.

(** X12. Detection does not look at the config it resolves a type for: it
    probes the variants at the project file of the workspace root.  So two
    configs without a truthy [type] (two sub-projects of a multi-app
    workspace, say) resolve to the same type with the same errors. *)
Theorem detection_ignores_the_config :
  forall (this : ProjectDetails) (a b : value) (w wa wb : World)
         (ra rb : ProjectDetailsSingleAppResult),
    truthy a = true -> truthy b = true ->
    truthy (get_own a "type") = false ->
    truthy (get_own b "type") = false ->
    determineSingleApp this a w = (inr ra, wa) ->
    determineSingleApp this b w = (inr rb, wb) ->
    app_type ra = app_type rb /\ app_errors ra = app_errors rb.
Proof.
  intros this a b w wa wb ra rb Ha Hb Hta Htb Hra Hrb.
  rewrite (determineSingleApp_outcome this a w Ha) in Hra.
  rewrite (determineSingleApp_outcome this b w Hb) in Hrb.
  rewrite Hta in Hra. rewrite Htb in Hrb.
  inversion Hra; subst. inversion Hrb; subst. split; reflexivity.
Qed.

(** *** getProject *)

Ltac after_compute :=
  unfold getProject_after;
  cbn [errors type context name configPath codes map code error find ErrorCode_eqb
       includes_code existsb orb andb when to_value negb];
  try rewrite andb_false_r;
  cbn [when].

Lemma after_missing_type :
  forall (cf : string) (ctx : Context) (c n : option value) (w1 : World),
    getProject_after
      (mkResult cf ctx c None n
         [mkProjectDetailsError "Could not determine project type."
            ERR_MISSING_PROJECT_TYPE None]) w1
    = (inr None, log_nl (log_warn (MsgMissingType cf) w1)).
Proof. intros. after_compute. destruct ctx; after_compute; reflexivity. Qed.

Lemma after_invalid_type :
  forall (cf : string) (ctx : Context) (c n : option value) (t : value) (w1 : World),
    truthy t = true ->
    getProject_after
      (mkResult cf ctx c (Some t) n
         [mkProjectDetailsError "Invalid project type." ERR_INVALID_PROJECT_TYPE None]) w1
    = (inr None, log_nl (log_error (MsgInvalidType t cf) w1)).
Proof.
  intros cf ctx c n t w1 Ht. after_compute.
  destruct ctx; after_compute; unfold bind at 1; unfold ret at 1;
    unfold bind at 1; unfold ret at 1; unfold bind at 1; unfold ret at 1;
    try (unfold bind at 1; unfold ret at 1); rewrite Ht; reflexivity.
Qed.

Lemma after_supported_type :
  forall (cf : string) (ctx : Context) (c n : option value) (pt : ProjectType) (w1 : World),
    ctx <> unknown -> (ctx = app -> n = None) ->
    getProject_after (mkResult cf ctx c (Some (type_value pt)) n []) w1
    = (inr (Some (new_Project pt cf n)), w1).
Proof.
  intros cf ctx c n pt w1 Hctx Happ. after_compute.
  destruct ctx; [| |contradiction]; after_compute.
  - rewrite (Happ eq_refl).
    unfold bind at 1; unfold ret at 1; unfold bind at 1; unfold ret at 1;
      unfold bind at 1; unfold ret at 1.
    rewrite type_value_truthy. cbn [negb]. unfold bind.
    rewrite createProjectFromType_known. reflexivity.
  - unfold bind at 1; unfold ret at 1; unfold bind at 1; unfold bind at 1;
      unfold ret at 1; unfold ret at 1; unfold bind at 1; unfold ret at 1.
    rewrite type_value_truthy. cbn [negb]. unfold bind.
    rewrite createProjectFromType_known. reflexivity.
Qed.

Lemma after_missing_name :
  forall (cf : string) (c n : option value) (w1 : World),
    getProject_after
      (mkResult cf multiapp c None n
         [mkProjectDetailsError "Could not determine project name."
            ERR_MULTI_MISSING_NAME None]) w1
    = (inr None, log_nl (log_warn (MsgMultiMissingName cf) w1)).
Proof. intros cf c n w1. after_compute. reflexivity. Qed.

Lemma after_missing_config :
  forall (cf : string) (c n : option value) (w1 : World),
    truthy (to_value n) = true ->
    getProject_after
      (mkResult cf multiapp c None n
         [mkProjectDetailsError "Could not find project in config."
            ERR_MULTI_MISSING_CONFIG None]) w1
    = (inr None, log_warn (MsgMultiMissingConfig (to_value n) cf) w1).
Proof. intros cf c n w1 Hn. after_compute. rewrite Hn. reflexivity. Qed.

Lemma getProject_unfold :
  forall (rd : string) (a : value) (ep : string) (w w1 : World) (r : ProjectDetailsResult),
    rd <> "" ->
    determine (mkProjectDetails rd a ep None) w = (inr r, w1) ->
    getProject (Some rd) a ep w = getProject_after r w1.
Proof.
  intros rd a ep w w1 r Hrd Hdet. unfold getProject.
  destruct (String.eqb rd "") eqn:E; [apply String.eqb_eq in E; contradiction|].
  unfold bind at 1. unfold result. cbn [_result]. unfold bind at 1.
  cbn [rootDirectory args execPath]. rewrite Hdet. reflexivity.
Qed.

(** The seven kinds of result and what [getProject] does on each. *)
Lemma getProject_cases :
  forall (rd : string) (a : value) (ep : string) (w w1 : World) (r : ProjectDetailsResult),
    rd <> "" ->
    determine (mkProjectDetails rd a ep None) w = (inr r, w1) ->
    (exists pt, type r = Some (type_value pt) /\ In pt PROJECT_TYPES /\ errors r = [] /\
                getProject (Some rd) a ep w =
                  (inr (Some (new_Project pt (configPath r) (name r))), w1)) \/
    (exists t, type r = Some t /\ codes (errors r) = [ERR_INVALID_PROJECT_TYPE] /\
               getProject (Some rd) a ep w =
                 (inr None, log_nl (log_error (MsgInvalidType t (configPath r)) w1))) \/
    (type r = None /\ codes (errors r) = [ERR_MISSING_PROJECT_TYPE] /\
     getProject (Some rd) a ep w =
       (inr None, log_nl (log_warn (MsgMissingType (configPath r)) w1))) \/
    (type r = None /\ codes (errors r) = [ERR_MULTI_MISSING_NAME] /\
     getProject (Some rd) a ep w =
       (inr None, log_nl (log_warn (MsgMultiMissingName (configPath r)) w1))) \/
    (type r = None /\ codes (errors r) = [ERR_MULTI_MISSING_CONFIG] /\
     getProject (Some rd) a ep w =
       (inr None,
        log_warn (MsgMultiMissingConfig (to_value (name r)) (configPath r)) w1)) \/
    (exists e, type r = None /\
               errors r = [mkProjectDetailsError "Could not read project file."
                             ERR_INVALID_PROJECT_FILE (Some e)] /\
               getProject (Some rd) a ep w =
                 (inr None, log_nl (log_error (MsgLoadError (configPath r) (Some e)) w1))) \/
    (type r = None /\ errors r = [] /\ context r = unknown /\
     getProject (Some rd) a ep w = (inr None, w1)).
Proof.
  intros rd a ep w w1 r Hrd Hdet.
  rewrite (getProject_unfold rd a ep w w1 r Hrd Hdet).
  destruct (determine_cases _ w w1 r Hdet)
    as [[e [_ Hr]]|[[c [_ [_ Hr]]]|[[c [rs [_ [Hc [_ [Hd Hr]]]]]]|[c [rm [_ [Hc [_ [_ [Hd Hr]]]]]]]]]].
  - right. right. right. right. right. left. exists e. subst r.
    split; [reflexivity|]. split; reflexivity.
  - right. right. right. right. right. right. subst r.
    split; [reflexivity|]. split; [reflexivity|]. split; reflexivity.
  - destruct (determineSingleApp_cases _ c w1 w1 rs Hc Hd)
      as [_ [_ [[Ht He]|[[t [Ht [Htr [Hin He]]]]|[t [Ht [Htr [Hin He]]]]]]]];
      rewrite Ht, He in Hr; subst r; cbn [type errors configPath name codes map code].
    + right. right. left. split; [reflexivity|]. split; [reflexivity|].
      apply after_missing_type.
    + left. apply includes_enum in Hin. destruct Hin as [pt [Hin Hpt]]. subst t.
      exists pt. split; [reflexivity|]. split; [exact Hin|]. split; [reflexivity|].
      apply after_supported_type; [discriminate|reflexivity].
    + right. left. exists t. split; [reflexivity|]. split; [reflexivity|].
      apply after_invalid_type. exact Htr.
  - destruct (determineMultiApp_cases _ c w1 w1 rm Hd)
      as [_ [_ [[Hn [Ht He]]|[[Hn [Happ [Ht He]]]|[Hn [Happ [rs [Hs [Ht He]]]]]]]]].
    + right. right. right. left. rewrite Ht, He in Hr. subst r.
      cbn [type errors configPath name codes map code].
      split; [reflexivity|]. split; [reflexivity|].
      apply after_missing_name.
    + right. right. right. right. left. rewrite Ht, He in Hr. subst r.
      cbn [type errors configPath name codes map code].
      split; [reflexivity|]. split; [reflexivity|].
      apply after_missing_config. exact Hn.
    + rewrite Ht, He in Hr.
      destruct (determineSingleApp_cases _ _ w1 w1 rs Happ Hs)
        as [_ [_ [[Ht' He']|[[t [Ht' [Htr [Hin He']]]]|[t [Ht' [Htr [Hin He']]]]]]]];
        rewrite Ht', He' in Hr; subst r; cbn [type errors configPath name codes map code].
      * right. right. left. split; [reflexivity|]. split; [reflexivity|].
        apply after_missing_type.
      * left. apply includes_enum in Hin. destruct Hin as [pt [Hin Hpt]]. subst t.
        exists pt. split; [reflexivity|]. split; [exact Hin|]. split; [reflexivity|].
        apply after_supported_type; [discriminate|discriminate].
      * right. left. exists t. split; [reflexivity|]. split; [reflexivity|].
        apply after_invalid_type. exact Htr.
Qed.

(** X13. Once resolution has returned, [getProject] returns too (it never
    reaches the [FatalException] of [createProjectFromType]), and it returns a
    project exactly when the result has a type and no error.  The project then
    has the type of the result, a member of [PROJECT_TYPES], the config path
    as its file and the name of the result (none for a single app), and
    nothing was logged. *)
Theorem getProject_builds_only_clean_results :
  forall (rd : string) (a : value) (ep : string) (w w1 : World) (r : ProjectDetailsResult),
    rd <> "" ->
    determine (mkProjectDetails rd a ep None) w = (inr r, w1) ->
    exists o w',
      getProject (Some rd) a ep w = (inr o, w') /\
      (forall p, o = Some p ->
         errors r = [] /\ type r = Some (type_value (project_type p)) /\
         In (project_type p) PROJECT_TYPES /\
         filePath p = configPath r /\ project_name p = name r /\ w' = w1) /\
      (o = None <-> (type r = None \/ errors r <> [])).
Proof.
  intros rd a ep w w1 r Hrd Hdet.
  destruct (getProject_cases rd a ep w w1 r Hrd Hdet)
    as [[pt [Ht [Hin [He Hg]]]]|[[t [Ht [He Hg]]]|[[Ht [He Hg]]|[[Ht [He Hg]]
       |[[Ht [He Hg]]|[[e [Ht [He Hg]]]|[Ht [He [_ Hg]]]]]]]]];
    rewrite Hg; eexists; eexists; (split; [reflexivity|]).
  - split.
    + intros p Hp. inversion Hp; subst p. cbn [project_type filePath project_name new_Project].
      repeat split; assumption.
    + split; [discriminate|]. intros [Hn|Hn]; [rewrite Ht in Hn; discriminate|contradiction].
  - split; [discriminate|]. split; [|reflexivity].
    intros _. right. intros Hn. rewrite Hn in He. discriminate.
  - split; [discriminate|]. split; [|reflexivity]. intros _. left. exact Ht.
  - split; [discriminate|]. split; [|reflexivity]. intros _. left. exact Ht.
  - split; [discriminate|]. split; [|reflexivity]. intros _. left. exact Ht.
  - split; [discriminate|]. split; [|reflexivity]. intros _. left. exact Ht.
  - split; [discriminate|]. split; [|reflexivity]. intros _. left. exact Ht.
Qed.

(** X14. Each diagnostic of the result is reported once and no project is
    returned: an error message followed by a new line for
    [ERR_INVALID_PROJECT_FILE] and [ERR_INVALID_PROJECT_TYPE], a warning
    followed by a new line for [ERR_MISSING_PROJECT_TYPE] and
    [ERR_MULTI_MISSING_NAME], and a warning without a new line for
    [ERR_MULTI_MISSING_CONFIG]. *)
Theorem getProject_reports_the_diagnostic :
  forall (rd : string) (a : value) (ep : string) (w w1 : World) (r : ProjectDetailsResult),
    rd <> "" ->
    determine (mkProjectDetails rd a ep None) w = (inr r, w1) ->
    let cf := configPath r in
    (In ERR_INVALID_PROJECT_FILE (codes (errors r)) ->
     exists cause,
       getProject (Some rd) a ep w =
         (inr None, log_nl (log_error (MsgLoadError cf cause) w1))) /\
    (In ERR_INVALID_PROJECT_TYPE (codes (errors r)) ->
     getProject (Some rd) a ep w =
       (inr None, log_nl (log_error (MsgInvalidType (to_value (type r)) cf) w1))) /\
    (In ERR_MISSING_PROJECT_TYPE (codes (errors r)) ->
     getProject (Some rd) a ep w = (inr None, log_nl (log_warn (MsgMissingType cf) w1))) /\
    (In ERR_MULTI_MISSING_NAME (codes (errors r)) ->
     getProject (Some rd) a ep w =
       (inr None, log_nl (log_warn (MsgMultiMissingName cf) w1))) /\
    (In ERR_MULTI_MISSING_CONFIG (codes (errors r)) ->
     getProject (Some rd) a ep w =
       (inr None, log_warn (MsgMultiMissingConfig (to_value (name r)) cf) w1)).
Proof.
  intros rd a ep w w1 r Hrd Hdet cf. subst cf.
  destruct (getProject_cases rd a ep w w1 r Hrd Hdet)
    as [[pt [Ht [Hin [He Hg]]]]|[[t [Ht [He Hg]]]|[[Ht [He Hg]]|[[Ht [He Hg]]
       |[[Ht [He Hg]]|[[e [Ht [He Hg]]]|[Ht [He [_ Hg]]]]]]]]];
    rewrite He; try rewrite Ht; cbn [codes map code to_value];
    repeat split; intros Hin';
    try (destruct Hin' as [Hc|[]]; discriminate);
    try (destruct Hin' as []);
    try exact Hg.
  all: exists (Some e); exact Hg.
Qed.

(** X15. [getProject] returns no project and does nothing when it is given no
    root directory (or an empty one); and what it throws is what [determine]
    throws on a fresh instance for that directory: a [TypeError], never the
    [FatalException] for a bad project type. *)
Theorem getProject_throws_only_what_determine_throws :
  forall (a : value) (ep : string) (w : World),
    getProject None a ep w = (inr None, w) /\
    getProject (Some "") a ep w = (inr None, w) /\
    forall (ro : option string) (w' : World) (e : exception),
      getProject ro a ep w = (inl e, w') ->
      exists rd,
        ro = Some rd /\ rd <> "" /\
        determine (mkProjectDetails rd a ep None) w = (inl e, w') /\
        exists msg, e = TypeError msg.
Proof.
  intros a ep w. split; [reflexivity|]. split; [reflexivity|].
  intros ro w' e H. destruct ro as [rd|]; [|inversion H].
  destruct (String.eqb rd "") eqn:E.
  - unfold getProject in H. rewrite E in H. inversion H.
  - assert (Hrd : rd <> "") by (intros Hx; subst rd; discriminate).
    exists rd. split; [reflexivity|]. split; [exact Hrd|].
    destruct (determine (mkProjectDetails rd a ep None) w) as [[e0|r] w1] eqn:Hdet.
    + unfold getProject in H. rewrite E in H. unfold bind at 1 in H.
      unfold result in H. cbn [_result] in H. unfold bind at 1 in H.
      cbn [rootDirectory args execPath] in H. rewrite Hdet in H.
      inversion H; subst. split; [reflexivity|].
      exact (determine_inl_TypeError _ _ _ _ Hdet).
    + destruct (getProject_cases rd a ep w w1 r Hrd Hdet)
        as [[pt [_ [_ [_ Hg]]]]|[[t [_ [_ Hg]]]|[[_ [_ Hg]]|[[_ [_ Hg]]
           |[[_ [_ Hg]]|[[e1 [_ [_ Hg]]]|[_ [_ [_ Hg]]]]]]]]];
        rewrite Hg in H; inversion H.
Qed.

End MoreProperties.

(** ** Properties of what Project reads from its config *)

Section ProjProperties.

Import Config.

Variable path_resolve : string -> string -> string.
Variable path_dirname : string -> string.
Variable prototype_member : value -> string -> value.

Lemma lookup_not_has :
  forall k l, has_prop k l = false -> lookup k l = VUndefined.
Proof.
  intros k l. unfold has_prop. induction l as [|[k0 v0] l IH]; simpl; intros H.
  - reflexivity.
  - destruct (String.eqb k k0); [discriminate|]. apply IH. exact H.
Qed.

Lemma ProjectConfig_idempotent :
  forall (this : BaseConfig) (file : value),
    ProjectConfig this (ProjectConfig this file) = ProjectConfig this file.
Proof.
  intros this file.
  destruct (is_string (lookup "app_id" (c this file))) eqn:E.
  - assert (Hl : exists f, ProjectConfig this file = unset this "app_id" f).
    { unfold ProjectConfig. rewrite E. eexists. reflexivity. }
    destruct Hl as [f Hf]. rewrite Hf.
    apply ProjectConfig_without_app_id. apply get_after_unset.
  - assert (Hl : ProjectConfig this file = file).
    { unfold ProjectConfig. rewrite E. reflexivity. }
    rewrite Hl. exact Hl.
Qed.

Lemma get_other_after_set :
  forall this k k' v file,
    String.eqb k' k = false -> get this k' (set this k v file) = get this k' file.
Proof.
  intros this k k' v file Hne. unfold get, set. rewrite c_after_write.
  rewrite lookup_assign by (apply NoDup_set_prop; apply NoDup_c).
  rewrite has_set_prop. rewrite Hne. simpl.
  rewrite (lookup_set_prop_neq k k' v _ Hne).
  destruct (has_prop k' (c this file)) eqn:Hh; [reflexivity|].
  rewrite (lookup_not_has _ _ Hh).
  unfold c in Hh. rewrite has_assign in Hh. apply orb_false_elim in Hh.
  change (lookup k' provideDefaults = VUndefined).
  apply lookup_not_has. exact (proj1 Hh).
Qed.

Lemma get_other_after_unset_any :
  forall this k k' file,
    String.eqb k' k = false -> get this k' (unset this k file) = get this k' file.
Proof.
  intros this k k' file Hne. unfold get, unset. rewrite c_after_write.
  rewrite lookup_assign by (apply NoDup_delete_prop; apply NoDup_c).
  rewrite has_delete_prop. rewrite Hne. simpl.
  rewrite (lookup_delete_prop_neq k k' _ Hne).
  destruct (has_prop k' (c this file)) eqn:Hh; [reflexivity|].
  rewrite (lookup_not_has _ _ Hh).
  unfold c in Hh. rewrite has_assign in Hh. apply orb_false_elim in Hh.
  change (lookup k' provideDefaults = VUndefined).
  apply lookup_not_has. exact (proj1 Hh).
Qed.

(** X16. The load of a project config changes nothing but [app_id] and
    [pro_id]: every other property reads the same after it.  When [app_id] is
    not a string (absent, a number, ...) the file is left as it is, and an
    empty [app_id] is dropped without touching [pro_id]. *)
Theorem ProjectConfig_keeps_other_properties :
  forall (this : BaseConfig) (file : value),
    (forall k, k <> "app_id" -> k <> "pro_id" ->
               get this k (ProjectConfig this file) = get this k file) /\
    (is_string (get this "app_id" file) = false -> ProjectConfig this file = file) /\
    (get this "app_id" file = VStr "" ->
     get this "pro_id" (ProjectConfig this file) = get this "pro_id" file /\
     get this "app_id" (ProjectConfig this file) = VUndefined).
Proof.
  intros this file. split; [|split].
  - intros k Ha Hp.
    assert (Hka : String.eqb k "app_id" = false) by (apply String.eqb_neq; exact Ha).
    assert (Hkp : String.eqb k "pro_id" = false) by (apply String.eqb_neq; exact Hp).
    unfold ProjectConfig.
    destruct (is_string (lookup "app_id" (c this file))); [|reflexivity].
    rewrite (get_other_after_unset_any this "app_id" k _ Hka).
    destruct (truthy (lookup "app_id" (c this file))); [|reflexivity].
    apply get_other_after_set. exact Hkp.
  - intros H. unfold ProjectConfig. unfold get in H. rewrite H. reflexivity.
  - intros H. unfold ProjectConfig. unfold get in H. rewrite H. simpl.
    split.
    + apply get_other_after_unset_any. reflexivity.
    + apply get_after_unset.
Qed.

Lemma ProjectConfig_pro_id :
  forall (this : BaseConfig) (file : value) (x : string),
    get this "app_id" file = VStr x -> x <> "" ->
    get this "pro_id" (ProjectConfig this file) = VStr x.
Proof.
  intros this file x Happ Hx.
  assert (Htruthy : truthy (VStr x) = true).
  { simpl. destruct (String.eqb x "") eqn:E; [|reflexivity].
    apply String.eqb_eq in E. contradiction. }
  unfold ProjectConfig. unfold get in Happ. rewrite Happ.
  simpl is_string. cbv iota. rewrite Htruthy.
  rewrite get_other_after_unset_any by reflexivity. apply get_after_set.
Qed.

(** X17. A project whose file still carries a legacy [app_id] X is linked:
    [requireProId] returns X, whatever [pro_id] the file had, and leaves the
    migrated file. *)
Theorem requireProId_after_migration :
  forall (this : Proj.Project) (file : value) (x : string),
    get (config_of (Proj.filePath this) (Proj.name this)) "app_id" file = VStr x ->
    x <> "" ->
    Proj.requireProId this file =
      (inr (VStr x),
       ProjectConfig (config_of (Proj.filePath this) (Proj.name this)) file).
Proof.
  intros this file x Happ Hx.
  unfold Proj.requireProId, Proj.config, Proj.config_get, bind. simpl.
  rewrite (ProjectConfig_pro_id _ file x Happ Hx).
  simpl. destruct (String.eqb x "") eqn:E; [apply String.eqb_eq in E; contradiction|].
  reflexivity.
Qed.

Lemma directory_world :
  forall (this : Proj.Project) (file : value),
    snd (Proj.directory path_resolve path_dirname this file) =
    ProjectConfig (config_of (Proj.filePath this) (Proj.name this)) file.
Proof.
  intros this file. unfold Proj.directory, Proj.config, Proj.config_get, bind. simpl.
  destruct (truthy (get _ "root" _)); simpl; [|reflexivity].
  unfold Proj.resolve_root. destruct (get _ "root" _); reflexivity.
Qed.

Lemma directory_stable :
  forall (this : Proj.Project) (file : value),
    Proj.directory path_resolve path_dirname this
      (ProjectConfig (config_of (Proj.filePath this) (Proj.name this)) file)
    = (fst (Proj.directory path_resolve path_dirname this file),
       ProjectConfig (config_of (Proj.filePath this) (Proj.name this)) file).
Proof.
  intros this file. unfold Proj.directory, Proj.config, Proj.config_get, bind. simpl.
  rewrite ProjectConfig_idempotent.
  destruct (truthy (get _ "root" _)); simpl; [|reflexivity].
  unfold Proj.resolve_root. destruct (get _ "root" _); reflexivity.
Qed.

Lemma getIntegration_world :
  forall (this : Proj.Project) (n : string) (file : value),
    snd (Proj.getIntegration path_resolve path_dirname prototype_member this n file) =
    ProjectConfig (config_of (Proj.filePath this) (Proj.name this)) file.
Proof.
  intros this n file.
  unfold Proj.getIntegration. unfold bind at 1. unfold Proj.config at 1.
  unfold bind at 1. unfold Proj.config_get at 1. unfold bind at 1.
  set (file1 := ProjectConfig _ file).
  set (ints := get _ "integrations" file1).
  destruct ints; simpl; try reflexivity.
  all: match goal with
       | |- context [truthy ?e] => destruct (truthy e); [|reflexivity]
       end.
  all: unfold bind;
       match goal with
       | |- context [get_own ?e "root"] => destruct (get_own e "root") eqn:Hr
       end; simpl; try reflexivity.
  all: try (subst file1; rewrite directory_stable;
            destruct (fst (Proj.directory path_resolve path_dirname this file));
            reflexivity).
Qed.

(** X18. [requireIntegration] returns an integration exactly when
    [getIntegration] returns one that is enabled, and it is that one; it throws
    a [FatalException] when [getIntegration] returns none or a disabled one,
    and otherwise only what [getIntegration] throws. *)
Theorem requireIntegration_only_enabled :
  forall (this : Proj.Project) (n : string) (file : value),
    (forall i file',
        Proj.requireIntegration path_resolve path_dirname prototype_member this n file
        = (inr i, file') <->
        Proj.getIntegration path_resolve path_dirname prototype_member this n file
        = (inr (Some i), file') /\
        Proj.enabled i = true) /\
    (forall e file',
        Proj.requireIntegration path_resolve path_dirname prototype_member this n file
        = (inl e, file') ->
        Proj.getIntegration path_resolve path_dirname prototype_member this n file
        = (inl e, file') \/
        ((exists msg, e = FatalException msg) /\
         (Proj.getIntegration path_resolve path_dirname prototype_member this n file
          = (inr None, file') \/
          exists i, Proj.getIntegration path_resolve path_dirname prototype_member this n file
                    = (inr (Some i), file') /\ Proj.enabled i = false))).
Proof.
  intros this n file. unfold Proj.requireIntegration, bind.
  destruct (Proj.getIntegration path_resolve path_dirname prototype_member this n file) as [[e0|[i0|]] f1].
  - split.
    + intros i file'. split; [discriminate|]. intros [H _]. discriminate.
    + intros e file' H. inversion H; subst. left. reflexivity.
  - destruct (Proj.enabled i0) eqn:Hen; simpl.
    + split.
      * intros i file'. split.
        -- intros H. inversion H; subst. split; [reflexivity|exact Hen].
        -- intros [H _]. inversion H; subst. reflexivity.
      * intros e file' H. discriminate.
    + split.
      * intros i file'. split; [discriminate|].
        intros [H Hi]. inversion H; subst. rewrite Hen in Hi. discriminate.
      * intros e file' H. unfold throw in H. inversion H; subst. right.
        split; [eexists; reflexivity|]. right. exists i0. split; [reflexivity|exact Hen].
  - split.
    + intros i file'. split; [discriminate|]. intros [H _]. discriminate.
    + intros e file' H. unfold throw in H. inversion H; subst. right.
      split; [eexists; reflexivity|]. left. reflexivity.
Qed.

(** X19. [getIntegration] returns nothing exactly when [integrations[name]]
    tests false, where [integrations[name]] is an entry of the [integrations]
    of the config or, for a name like [constructor], a member they inherit
    from their prototype.  What is found there is disabled by
    [enabled: false] and by nothing else; without a [root] it gets the
    directory of the project, with a string [root] that root resolved against
    the directory of the project file. *)
Theorem getIntegration_reads_the_entry :
  forall (this : Proj.Project) (n : string) (file file' : value)
         (o : option Proj.ProjectIntegration),
    Proj.getIntegration path_resolve path_dirname prototype_member this n file = (inr o, file') ->
    let cfg := config_of (Proj.filePath this) (Proj.name this) in
    let entry :=
      get_property prototype_member (get cfg "integrations" (ProjectConfig cfg file)) n in
    (o = None <-> truthy entry = false) /\
    forall i, o = Some i ->
      (Proj.enabled i = false <-> get_own entry "enabled" = VBool false) /\
      (get_own entry "root" = VUndefined ->
       fst (Proj.directory path_resolve path_dirname this file) = inr (Proj.root i)) /\
      (forall s, get_own entry "root" = VStr s ->
                 Proj.root i = path_resolve (Proj.rootDirectory path_dirname this) s).
Proof.
  intros this n file file' o H cfg entry. subst cfg entry.
  unfold Proj.getIntegration in H. unfold bind at 1 in H. unfold Proj.config at 1 in H.
  unfold bind at 1 in H. unfold Proj.config_get at 1 in H. unfold bind at 1 in H.
  set (file1 := ProjectConfig _ file) in *.
  assert (Hent : forall ints : value,
             get_computed_member prototype_member ints n file1 =
               (inr (get_property prototype_member ints n), file1) \/
             exists e, get_computed_member prototype_member ints n file1 = (inl e, file1)).
  { intros ints. destruct ints; simpl; try (left; reflexivity);
      right; eexists; reflexivity. }
  destruct (Hent (get (config_of (Proj.filePath this) (Proj.name this))
                    "integrations" file1)) as [Hg|[e Hg]];
    rewrite Hg in H; [|discriminate].
  set (entry := get_property prototype_member _ n) in *.
  destruct (truthy entry) eqn:Htr.
  - unfold bind in H.
    assert (Hen : forall b : bool,
               (Proj.not_false (get_own entry "enabled") = false <->
                get_own entry "enabled" = VBool false)).
    { intros _. unfold Proj.not_false.
      destruct (get_own entry "enabled") as [| |[|]| | | | |];
        split; intros Hx; try discriminate; reflexivity. }
    destruct (get_own entry "root") as [| |b|z|s|l|l|f] eqn:Hr;
      try (simpl in H; unfold throw in H; discriminate).
    + subst file1. rewrite directory_stable in H.
      destruct (fst (Proj.directory path_resolve path_dirname this file)) as [e|d] eqn:Hd;
        [discriminate|].
      inversion H; subst. split; [split; discriminate|].
      intros i Hi. inversion Hi; subst i. cbn [Proj.enabled Proj.root].
      split; [apply (Hen true)|]. split; [reflexivity|]. intros s Hs. discriminate.
    + simpl in H. unfold ret in H. inversion H; subst.
      split; [split; discriminate|].
      intros i Hi. inversion Hi; subst i. cbn [Proj.enabled Proj.root].
      split; [apply (Hen true)|]. split; [discriminate|].
      intros s0 Hs. inversion Hs; subst. reflexivity.
  - inversion H; subst. split; [split; reflexivity|]. intros i Hi. discriminate.
Qed.

(** X20. Reading through a project ([directory], [requireProId],
    [getIntegration], [requireIntegration]) writes nothing to the project file
    but the migration of the legacy [app_id], whether the call returns or
    throws; and after one such read the file is stable: a further load changes
    nothing. *)
Theorem project_reads_only_migrate :
  forall (this : Proj.Project) (n : string) (file : value),
    let migrated := ProjectConfig (config_of (Proj.filePath this) (Proj.name this)) file in
    snd (Proj.directory path_resolve path_dirname this file) = migrated /\
    snd (Proj.requireProId this file) = migrated /\
    snd (Proj.getIntegration path_resolve path_dirname prototype_member this n file) = migrated /\
    snd (Proj.requireIntegration path_resolve path_dirname prototype_member this n file) = migrated /\
    ProjectConfig (config_of (Proj.filePath this) (Proj.name this)) migrated = migrated.
Proof.
  intros this n file migrated. subst migrated.
  split; [apply directory_world|].
  split.
  { unfold Proj.requireProId, Proj.config, Proj.config_get, bind. simpl.
    destruct (truthy (get _ "pro_id" _)); reflexivity. }
  split; [apply getIntegration_world|].
  split; [|apply ProjectConfig_idempotent].
  unfold Proj.requireIntegration, bind.
  pose proof (getIntegration_world this n file) as Hw.
  destruct (Proj.getIntegration path_resolve path_dirname prototype_member this n file) as [[e|[i|]] f1];
    simpl in *; try exact Hw.
  destruct (Proj.enabled i); exact Hw.
Qed.

End ProjProperties.

(** ** The further properties on the concrete world *)



Lemma getNameFromPathMatch_sound_witness :
  getNameFromPathMatch (imports := Demo.imports)
    (Demo.details Demo.no_args "/ws/apps/app2/src") Demo.cfg_multi (Demo.world_of None [])
  = (inr (Some (VStr "app2")), Demo.world_of None []) /\
  exists l1 k v l2,
    entries (get_own Demo.cfg_multi "projects") = l1 ++ (k, v) :: l2 /\
    VStr "app2" = VStr k /\
    contains_cwd (imports := Demo.imports)
      (Demo.details Demo.no_args "/ws/apps/app2/src") v = true /\
    forall kv, In kv l1 ->
               contains_cwd (imports := Demo.imports)
                 (Demo.details Demo.no_args "/ws/apps/app2/src") (snd kv) = false.
Proof.
  split; [reflexivity|].
  exact (proj2 (getNameFromPathMatch_sound (imports := Demo.imports)
                  (Demo.details Demo.no_args "/ws/apps/app2/src") Demo.cfg_multi
                  (Demo.world_of None []) (Demo.world_of None [])
                  (Some (VStr "app2")) eq_refl)).
Defined.

Lemma prettyProjectName_nonempty_witness :
  prettyProjectName (Some "custom") <> "".
Proof. exact (prettyProjectName_nonempty (Some "custom")). Defined.

Lemma pretty_names_and_tooling_agree_witness :
  "custom" <> "" /\ prettyProjectName (Some "custom") = "custom".
Proof.
  assert (H : "custom" <> "") by discriminate.
  split; [exact H|].
  apply (proj1 (proj1 pretty_names_and_tooling_agree "custom" H)). reflexivity.
Defined.


Lemma determine_at_most_one_error_witness :
  (List.length
     [mkProjectDetailsError "Invalid project type." ERR_INVALID_PROJECT_TYPE None] <= 1)%nat.
Proof.
  exact (determine_at_most_one_error (imports := Demo.imports)
           (Demo.details Demo.no_args "/ws")
           (Demo.world_of (Some (Some Demo.cfg_other_type)) []) _ _ eq_refl).
Defined.

Lemma determine_diagnostics_by_context_witness :
  context
    (mkResult "/ws/ionic.config.json" unknown None None None
       [mkProjectDetailsError "Could not read project file." ERR_INVALID_PROJECT_FILE
          (Some (OtherError "Error" "ENOENT: no such file or directory"))]) = unknown.
Proof.
  apply (proj1 (proj2 (proj2 (proj2 (determine_diagnostics_by_context
           (imports := Demo.imports) (Demo.details Demo.no_args "/ws")
           (Demo.world_of None []) _ _ eq_refl))))).
  reflexivity.
Defined.

Lemma determine_type_and_errors_witness :
  truthy (VStr "vue") = true /\
  forall pt, In pt [angular; ionic_angular; ionic1; custom] -> VStr "vue" <> type_value pt.
Proof.
  destruct (proj1 (determine_type_and_errors (imports := Demo.imports)
                     (Demo.details Demo.no_args "/ws")
                     (Demo.world_of (Some (Some Demo.cfg_other_type)) []) _ _ eq_refl)
              (VStr "vue") eq_refl) as [Ht [[He _]|[_ Hout]]].
  - discriminate He.
  - split; [exact Ht|exact Hout].
Defined.

Lemma determine_explicit_supported_type_witness :
  determine (imports := Demo.imports) (Demo.details Demo.no_args "/ws")
    (Demo.world_of (Some (Some Demo.cfg_typed)) [angular])
  = (inr (mkResult "/ws/ionic.config.json" app (Some Demo.cfg_typed)
            (Some (VStr "ionic1")) None []),
     Demo.mkWorld [("/ws/ionic.config.json", Some Demo.cfg_typed)] [angular]
       ["/ws/ionic.config.json"]).
Proof.
  apply (determine_explicit_supported_type (imports := Demo.imports)
           (Demo.details Demo.no_args "/ws")
           (Demo.world_of (Some (Some Demo.cfg_typed)) [angular]) _
           [("name", VStr "app"); ("type", VStr "ionic1")] ionic1 eq_refl eq_refl eq_refl).
  simpl. auto.
Defined.

Lemma determineMultiApp_errors_characterised_witness :
  (In ERR_MULTI_MISSING_CONFIG
     (codes [mkProjectDetailsError "Could not find project in config."
               ERR_MULTI_MISSING_CONFIG None]) /\
   truthy (get_property Demo.inherited (get_own Demo.cfg_multi "projects") "foo") = false) /\
  truthy (get_property Demo.inherited (get_own Demo.cfg_multi "projects") "constructor")
  = true.
Proof.
  split.
  - pose proof (determineMultiApp_errors_characterised (imports := Demo.imports)
                  (Demo.details (Demo.project_arg "foo") "/ws") Demo.cfg_multi
                  (Demo.world_of None []) _ _ eq_refl) as H.
    cbv zeta in H. destruct H as [_ [Hcfg _]].
    assert (Hin : In ERR_MULTI_MISSING_CONFIG
                    (codes [mkProjectDetailsError "Could not find project in config."
                              ERR_MULTI_MISSING_CONFIG None])) by (left; reflexivity).
    split; [exact Hin|]. exact (proj2 (proj1 Hcfg Hin)).
  - pose proof (determineMultiApp_errors_characterised (imports := Demo.imports)
                  (Demo.details (Demo.project_arg "constructor") "/ws") Demo.cfg_multi
                  (Demo.world_of None [ionic1]) _ _ eq_refl) as H.
    cbv zeta in H. destruct H as [_ [_ Hty]].
    exact (proj2 (Hty (VStr "ionic1") eq_refl)).
Defined.

Lemma detection_ignores_the_config_witness :
  Some (VStr "ionic1") = Some (VStr "ionic1") /\
  @nil ProjectDetailsError = @nil ProjectDetailsError.
Proof.
  exact (detection_ignores_the_config (imports := Demo.imports)
           (Demo.details Demo.no_args "/ws") Demo.obj_app1 Demo.cfg_untyped
           (Demo.world_of None [ionic1]) _ _ _ _
           eq_refl eq_refl eq_refl eq_refl eq_refl eq_refl).
Defined.

Lemma getProject_builds_only_clean_results_witness :
  exists o w',
    getProject (imports := DemoLog.imports) (log := DemoLog.logger)
      (Some "/ws") Demo.no_args "/ws"
      (DemoLog.world_of (Some (Some Demo.cfg_typed)) []) = (inr o, w') /\
    (forall p, o = Some p -> project_type p = ionic1 /\ DemoLog.logged w' = []).
Proof.
  assert (Hrd : "/ws" <> "") by discriminate.
  destruct (getProject_builds_only_clean_results (imports := DemoLog.imports)
              (log := DemoLog.logger) "/ws" Demo.no_args "/ws"
              (DemoLog.world_of (Some (Some Demo.cfg_typed)) []) _ _ Hrd eq_refl)
    as [o [w' [Hg [Hp _]]]].
  exists o, w'. split; [exact Hg|].
  intros p Ho. destruct (Hp p Ho) as [_ [Ht [_ [_ [_ Hw]]]]].
  split.
  - cbn [type] in Ht. destruct (project_type p); inversion Ht; reflexivity.
  - rewrite Hw. reflexivity.
Defined.

Lemma getProject_reports_the_diagnostic_witness :
  getProject (imports := DemoLog.imports) (log := DemoLog.logger)
    (Some "/ws") Demo.no_args "/ws"
    (DemoLog.world_of (Some (Some Demo.cfg_untyped)) [])
  = (inr None,
     DemoLog.mkWorld
       (Demo.mkWorld [("/ws/ionic.config.json", Some Demo.cfg_untyped)] []
          ["/ws/ionic.config.json"])
       [(DemoLog.LNewline, None);
        (DemoLog.LWarn, Some (MsgMissingType "/ws/ionic.config.json"))]).
Proof.
  assert (Hrd : "/ws" <> "") by discriminate.
  pose proof (getProject_reports_the_diagnostic (imports := DemoLog.imports)
                (log := DemoLog.logger) "/ws" Demo.no_args "/ws"
                (DemoLog.world_of (Some (Some Demo.cfg_untyped)) []) _ _ Hrd eq_refl) as H.
  cbv zeta in H. destruct H as [_ [_ [Hm _]]].
  apply Hm. left. reflexivity.
Defined.

Lemma getProject_throws_only_what_determine_throws_witness :
  getProject (imports := DemoLog.imports) (log := DemoLog.logger)
    None Demo.no_args "/ws" (DemoLog.world_of None [])
  = (inr None, DemoLog.world_of None []).
Proof.
  exact (proj1 (getProject_throws_only_what_determine_throws (imports := DemoLog.imports)
                  (log := DemoLog.logger) Demo.no_args "/ws" (DemoLog.world_of None []))).
Defined.

Lemma ProjectConfig_keeps_other_properties_witness :
  "name" <> "app_id" /\ "name" <> "pro_id" /\
  Config.get (Config.config_of "/ws/ionic.config.json" None) "name"
    (Config.ProjectConfig (Config.config_of "/ws/ionic.config.json" None)
       DemoLog.file_legacy) = VStr "app".
Proof.
  assert (Ha : "name" <> "app_id") by discriminate.
  assert (Hp : "name" <> "pro_id") by discriminate.
  split; [exact Ha|]. split; [exact Hp|].
  rewrite (proj1 (ProjectConfig_keeps_other_properties
                    (Config.config_of "/ws/ionic.config.json" None) DemoLog.file_legacy)
             "name" Ha Hp).
  reflexivity.
Defined.

Lemma requireProId_after_migration_witness :
  fst (Proj.requireProId DemoLog.project DemoLog.file_legacy) = inr (VStr "X").
Proof.
  assert (Hx : "X" <> "") by discriminate.
  rewrite (requireProId_after_migration DemoLog.project DemoLog.file_legacy "X" eq_refl Hx).
  reflexivity.
Defined.

Lemma requireIntegration_only_enabled_witness :
  exists msg,
    fst (Proj.requireIntegration Demo.resolve DemoLog.dirname Demo.inherited
           DemoLog.project "gulp" DemoLog.file_legacy) = inl (FatalException msg).
Proof.
  destruct (Proj.requireIntegration Demo.resolve DemoLog.dirname Demo.inherited
              DemoLog.project "gulp" DemoLog.file_legacy) as [[e|i] f] eqn:Hr.
  - destruct (proj2 (requireIntegration_only_enabled Demo.resolve DemoLog.dirname
                       Demo.inherited DemoLog.project "gulp" DemoLog.file_legacy) e f Hr)
      as [Hg|[[msg Hmsg] _]].
    + vm_compute in Hg. discriminate Hg.
    + exists msg. rewrite Hmsg. reflexivity.
  - vm_compute in Hr. discriminate Hr.
Defined.

Lemma getIntegration_reads_the_entry_witness :
  fst (Proj.directory Demo.resolve DemoLog.dirname DemoLog.project DemoLog.file_legacy)
  = inr "/ws".
Proof.
  pose proof (getIntegration_reads_the_entry Demo.resolve DemoLog.dirname Demo.inherited
                DemoLog.project "cordova" DemoLog.file_legacy _ _ eq_refl) as H.
  cbv zeta in H. destruct H as [_ H].
  exact (proj1 (proj2 (H {| Proj.enabled := true; Proj.root := "/ws" |} eq_refl)) eq_refl).
Defined.

Lemma project_reads_only_migrate_witness :
  snd (Proj.requireIntegration Demo.resolve DemoLog.dirname Demo.inherited
         DemoLog.project "gulp" DemoLog.file_legacy)
  = Config.ProjectConfig (Config.config_of "/ws/ionic.config.json" None) DemoLog.file_legacy.
Proof.
  pose proof (project_reads_only_migrate Demo.resolve DemoLog.dirname Demo.inherited
                DemoLog.project "gulp" DemoLog.file_legacy) as H.
  cbv zeta in H. exact (proj1 (proj2 (proj2 (proj2 H)))).
Defined.
